(** * build.py of Doug's Dharma Video Index, embedded and verified

    The script reads [dougs_dharma_index.json] and [template.html], compacts
    every video record, counts topics and suttas, fills the placeholders of
    the template and writes [index.html].  It is a single top-to-bottom
    run, embedded here as a computation over an explicit world (the three
    files and the console) that may end by [sys.exit] or by an uncaught
    exception.

    Conventions of the embedding.
    - A Python [str] is a Rocq [string] holding the UTF-8 encoding of the
      text (the files are opened with [encoding='utf-8']).  [len] counts code
      points, see [py_len]; comparison of UTF-8 encodings byte by byte agrees
      with Python's comparison by code point.  A [str] may hold a lone
      surrogate (the JSON escape [\ud800] gives one); it is held in the same
      three-byte form, which the [utf-8] codec refuses to write, see
      [has_surrogate] and [write_output].
    - A value produced by [json.load] is a [json].  Numbers with a fraction
      or an exponent (Python floats) are outside the model.
    - [json.load], [json.dumps], [datetime.strptime] and [strftime] belong to
      the Python library; [json.dumps] and the two date functions are
      modelled below for the arguments the script passes, the parser is
      represented by the parsed content of the data file. *)

From Stdlib Require Import ZArith NArith String Ascii List Lia Bool.
From stdpp Require Import base option list gmap sets strings sorting pretty.

Local Open Scope string_scope.
Local Open Scope list_scope.

(** ** Values *)

Local Unset Elimination Schemes.
Inductive json : Type :=
| JNull
| JBool (b : bool)
| JInt (z : Z)
| JStr (s : string)
| JArr (xs : list json)
| JObj (kvs : list (string * json)).
Local Set Elimination Schemes.

(** A [dict] is the list of its items in insertion order. *)
Fixpoint dict_lookup (k : string) (kvs : list (string * json)) : option json :=
  match kvs with
  | [] => None
  | (k', v) :: rest => if String.eqb k k' then Some v else dict_lookup k rest
  end.

(** ** Exceptions and the result monad *)

Inductive exn : Type :=
| KeyError (key : string)
| TypeError (what : string)
| AttributeError (attr : string)
| ValueError (what : string)
| NameError (name : string)
| UnicodeDecodeError
| UnicodeEncodeError.

Inductive result (A : Type) : Type :=
| Ok (a : A)
| Raise (e : exn).
Arguments Ok {A} a.
Arguments Raise {A} e.

#[global] Instance result_ret : MRet result := fun A a => Ok a.
#[global] Instance result_bind : MBind result := fun A B f m =>
  match m with
  | Ok a => f a
  | Raise e => Raise e
  end.

(** [[f x for x in xs]] and [for x in xs: ...append(f x)]: left to right, the
    first exception ends the loop. *)
Fixpoint for_each {A B} (f : A -> result B) (xs : list A) : result (list B) :=
  match xs with
  | [] => Ok []
  | x :: rest =>
      y ← f x;
      ys ← for_each f rest;
      Ok (y :: ys)
  end.

(** ** Python primitives on JSON values *)

(** [v[k]] for a string key [k]. *)
Definition py_getitem (v : json) (k : string) : result json :=
  match v with
  | JObj kvs =>
      match dict_lookup k kvs with
      | Some x => Ok x
      | None => Raise (KeyError k)
      end
  | JArr _ => Raise (TypeError "list indices must be integers or slices, not str")
  | JStr _ => Raise (TypeError "string indices must be integers, not str")
  | _ => Raise (TypeError "object is not subscriptable")
  end.

(** [v.get(k, dflt)]. *)
Definition py_get (v : json) (k : string) (dflt : json) : result json :=
  match v with
  | JObj kvs => Ok (default dflt (dict_lookup k kvs))
  | _ => Raise (AttributeError "get")
  end.

(** Truth value of a JSON value. *)
Definition truthy (v : json) : bool :=
  match v with
  | JNull => false
  | JBool b => b
  | JInt z => negb (Z.eqb z 0)
  | JStr s => negb (String.eqb s "")
  | JArr xs => match xs with [] => false | _ => true end
  | JObj kvs => match kvs with [] => false | _ => true end
  end.

(** A byte [10xxxxxx] continues a UTF-8 code point. *)
Definition is_continuation (c : ascii) : bool :=
  let n := nat_of_ascii c in (128 <=? n)%nat && (n <? 192)%nat.

(** [len(s)]: the number of code points. *)
Fixpoint py_len (s : string) : nat :=
  match s with
  | EmptyString => 0
  | String c rest => (if is_continuation c then 0 else 1) + py_len rest
  end.

(** A lone surrogate U+D800..U+DFFF: the byte [ED] followed by a byte
    [A0..BF].  The [utf-8] codec encodes no such code point. *)
Fixpoint has_surrogate (s : string) : bool :=
  match s with
  | EmptyString => false
  | String c rest =>
      match rest with
      | String c' _ =>
          ((nat_of_ascii c =? 237)%nat
           && (160 <=? nat_of_ascii c')%nat && (nat_of_ascii c' <=? 191)%nat)
          || has_surrogate rest
      | EmptyString => false
      end
  end.

(** The code points of a string, each as a string of its own. *)
Fixpoint code_points (s : string) : list string :=
  match s with
  | EmptyString => []
  | String c rest =>
      match rest with
      | String c' _ =>
          if is_continuation c' then
            match code_points rest with
            | h :: t => String c h :: t
            | [] => [String c EmptyString]
            end
          else String c EmptyString :: code_points rest
      | EmptyString => [String c EmptyString]
      end
  end.

(** [iter(v)]: a list gives its elements, a dict its keys, a string its
    characters. *)
Definition py_iter (v : json) : result (list json) :=
  match v with
  | JArr xs => Ok xs
  | JObj kvs => Ok (map (fun kv => JStr (fst kv)) kvs)
  | JStr s => Ok (map JStr (code_points s))
  | _ => Raise (TypeError "object is not iterable")
  end.

(** [len(v)]. *)
Definition py_len_json (v : json) : result nat :=
  match v with
  | JArr xs => Ok (length xs)
  | JObj kvs => Ok (length kvs)
  | JStr s => Ok (py_len s)
  | _ => Raise (TypeError "object has no len()")
  end.

(** ** Step 2: compaction (build.py, lines 51-65) *)

Definition compact_sutta_ref (s : json) : result json :=
  id ← py_getitem s "sutta_id";
  url ← py_get s "url" (JStr "");
  l ← py_get s "label" (JStr "");
  Ok (JObj [("id", id); ("url", url); ("l", if truthy l then l else JStr "")]).

Definition compact_other_ref (r : json) : result json :=
  ty ← py_get r "type" (JStr "");
  label ← py_get r "label" (JStr "");
  url ← py_get r "url" (JStr "");
  Ok (JObj [("type", ty); ("label", label); ("url", url)]).

Definition compact_related_video (r : json) : result json :=
  t ← py_getitem r "title";
  u ← py_getitem r "url";
  Ok (JObj [("t", t); ("u", u)]).

Definition compact_record (v : json) : result json :=
  t ← py_getitem v "title";
  d ← py_get v "date" (JStr "");
  u ← py_getitem v "youtube_url";
  s ← py_get v "summary" (JStr "");
  tp ← py_get v "topics" (JArr []);
  srs ← py_get v "sutta_refs" (JArr []);
  srl ← py_iter srs;
  sr ← for_each compact_sutta_ref srl;
  ors ← py_get v "other_refs" (JArr []);
  orl ← py_iter ors;
  or ← for_each compact_other_ref orl;
  rvs ← py_get v "related_videos" (JArr []);
  rvl ← py_iter rvs;
  rv ← for_each compact_related_video rvl;
  Ok (JObj [("t", t); ("d", d); ("u", u); ("s", s); ("tp", tp);
            ("sr", JArr sr); ("or", JArr or); ("rv", JArr rv)]).

(** The loop [for v in data: compact.append({...})]. *)
Definition compact (data : json) : result (list json) :=
  vs ← py_iter data;
  for_each compact_record vs.

(** ** [json.dumps(compact, separators=(',', ':'), ensure_ascii=False)] *)

Definition dquote : ascii := "034"%char.
Definition backslash : ascii := "092"%char.

Definition hex_digit (n : nat) : ascii :=
  if (n <? 10)%nat then ascii_of_nat (48 + n) else ascii_of_nat (87 + n).

(** With [ensure_ascii=False] only the quote, the backslash and the control
    characters below U+0020 are escaped. *)
Definition escape_char (c : ascii) : string :=
  let n := nat_of_ascii c in
  if Ascii.eqb c dquote then String backslash (String dquote "")
  else if Ascii.eqb c backslash then String backslash (String backslash "")
  else if (n =? 8)%nat then String backslash "b"
  else if (n =? 12)%nat then String backslash "f"
  else if (n =? 10)%nat then String backslash "n"
  else if (n =? 13)%nat then String backslash "r"
  else if (n =? 9)%nat then String backslash "t"
  else if (n <? 32)%nat then
    String backslash
      ("u00" +:+ String (hex_digit (n / 16)) (String (hex_digit (n mod 16)) ""))
  else String c "".

Fixpoint escape_string (s : string) : string :=
  match s with
  | EmptyString => ""
  | String c rest => escape_char c +:+ escape_string rest
  end.

Definition dumps_string (s : string) : string :=
  String dquote (escape_string s) +:+ String dquote "".

(** [','.join(items)] *)
Fixpoint join_comma (items : list string) : string :=
  match items with
  | [] => ""
  | [x] => x
  | x :: rest => x +:+ "," +:+ join_comma rest
  end.

Fixpoint json_dumps (v : json) : string :=
  match v with
  | JNull => "null"
  | JBool true => "true"
  | JBool false => "false"
  | JInt z => pretty z
  | JStr s => dumps_string s
  | JArr xs => "[" +:+ join_comma (map json_dumps xs) +:+ "]"
  | JObj kvs =>
      "{" +:+
      join_comma (map (fun kv => dumps_string (fst kv) +:+ ":" +:+ json_dumps (snd kv)) kvs)
      +:+ "}"
  end.

(** ** [str.replace(old, new)] *)

(** Left to right, non-overlapping: [skip] counts the characters of a match
    that are still to be dropped. *)
Fixpoint replace_from (old new : string) (skip : nat) (s : string) : string :=
  match s with
  | EmptyString => ""
  | String c rest =>
      match skip with
      | S k => replace_from old new k rest
      | O =>
          if String.prefix old s
          then new +:+ replace_from old new (String.length old - 1) rest
          else String c (replace_from old new 0 rest)
      end
  end.

Fixpoint intersperse_after (new s : string) : string :=
  match s with
  | EmptyString => ""
  | String c rest => String c (new +:+ intersperse_after new rest)
  end.

Definition replace (old new s : string) : string :=
  match old with
  | EmptyString => new +:+ intersperse_after new s
  | String _ _ => replace_from old new 0 s
  end.

(** ** Step 3: the sets of topics and suttas (build.py, lines 71-77) *)

(** What a [set] holds: hashable values up to Python's [==], under which
    [True == 1] and [False == 0]. *)
Inductive pykey : Type :=
| KNone
| KInt (z : Z)
| KStr (s : string).

#[global] Instance pykey_eq_dec : EqDecision pykey.
Proof. solve_decision. Defined.

#[global] Instance pykey_countable : Countable pykey.
Proof.
  refine (inj_countable'
    (fun k => match k with
              | KNone => inl ()
              | KInt z => inr (inl z)
              | KStr s => inr (inr s)
              end)
    (fun x => match x with
              | inl _ => KNone
              | inr (inl z) => KInt z
              | inr (inr s) => KStr s
              end) _).
  intros []; reflexivity.
Defined.

Definition py_hash (v : json) : result pykey :=
  match v with
  | JNull => Ok KNone
  | JBool b => Ok (KInt (if b then 1 else 0))
  | JInt z => Ok (KInt z)
  | JStr s => Ok (KStr s)
  | JArr _ => Raise (TypeError "unhashable type: list")
  | JObj _ => Raise (TypeError "unhashable type: dict")
  end.

(** A [for] loop that updates a state. *)
Fixpoint for_fold {A S} (body : S -> A -> result S) (xs : list A) (s : S) : result S :=
  match xs with
  | [] => Ok s
  | x :: rest =>
      s' ← body s x;
      for_fold body rest s'
  end.

(** [all_topics.add(t)] *)
Definition add_topic (all_topics : gset pykey) (t : json) : result (gset pykey) :=
  k ← py_hash t;
  Ok ({[k]} ∪ all_topics).

(** [all_suttas.add(s['sutta_id'])] *)
Definition add_sutta (all_suttas : gset pykey) (s : json) : result (gset pykey) :=
  id ← py_getitem s "sutta_id";
  k ← py_hash id;
  Ok ({[k]} ∪ all_suttas).

Definition stats_of_record (acc : gset pykey * gset pykey) (v : json)
  : result (gset pykey * gset pykey) :=
  topics ← py_get v "topics" (JArr []);
  tl ← py_iter topics;
  all_topics ← for_fold add_topic tl (fst acc);
  suttas ← py_get v "sutta_refs" (JArr []);
  sl ← py_iter suttas;
  all_suttas ← for_fold add_sutta sl (snd acc);
  Ok (all_topics, all_suttas).

Definition count_stats (data : json) : result (gset pykey * gset pykey) :=
  vs ← py_iter data;
  for_fold stats_of_record vs (∅, ∅).

(** ** The date range (build.py, lines 95-100) *)

(** [[v['date'] for v in data if v.get('date')]] *)
Fixpoint dates_of (vs : list json) : result (list json) :=
  match vs with
  | [] => Ok []
  | v :: rest =>
      g ← py_get v "date" JNull;
      if truthy g then
        d ← py_getitem v "date";
        ds ← dates_of rest;
        Ok (d :: ds)
      else dates_of rest
  end.

Definition collect_dates (data : json) : result (list json) :=
  vs ← py_iter data;
  dates_of vs.

Fixpoint insert_sorted (x : string) (l : list string) : list string :=
  match l with
  | [] => [x]
  | y :: rest => if String.leb x y then x :: l else y :: insert_sorted x rest
  end.

(** [sorted] on strings.  Python's sort is another algorithm; on strings,
    where equal elements are identical, every sort gives the same list. *)
Fixpoint sort_strings (l : list string) : list string :=
  match l with
  | [] => []
  | x :: rest => insert_sorted x (sort_strings rest)
  end.

Definition as_str (v : json) : option string :=
  match v with
  | JStr s => Some s
  | _ => None
  end.

(** [sorted(dates)] as far as the script can tell.  A list that mixes strings
    with other values makes [sorted] raise [TypeError] ([<] between [str] and
    any other JSON value is unsupported); a list without any string either
    fails in [sorted] or reaches [strptime], which raises [TypeError] on a
    non-string.  Nothing is printed or written in between, so both are the
    same [TypeError] here. *)
Definition py_sorted (ds : list json) : result (list string) :=
  match mapM as_str ds with
  | Some ss => Ok (sort_strings ss)
  | None => Raise (TypeError "dates must be str")
  end.

(** *** [datetime.strptime(s, '%Y-%m-%d')]

    CPython turns the format into the regular expression
    [(?P<Y>\d\d\d\d)-(?P<m>1[0-2]|0[1-9]|[1-9])-(?P<d>3[0-1]|[1-2]\d|0[1-9]|[1-9]| [1-9])],
    matches it at the start of the string, rejects unconverted data after
    the match, and builds the date, which checks the calendar.  A class such
    as [[0-2]] holds ASCII digits only; [\d] matches every decimal digit of
    Unicode, in the four places of the year and in the second place of a day
    from 10 to 29, and [int] reads each such digit by its value. *)

(** The code point at the head of a string, with the rest. *)
Definition continuation_bits (c : ascii) : option N :=
  if is_continuation c then Some (N_of_ascii c - 128)%N else None.

Definition decode_code_point (s : string) : option (N * string) :=
  match s with
  | EmptyString => None
  | String c0 r0 =>
      let b0 := N_of_ascii c0 in
      if (b0 <? 128)%N then Some (b0, r0)
      else if (b0 <? 194)%N then None
      else if (b0 <? 224)%N then
        match r0 with
        | String c1 r1 =>
            b1 ← continuation_bits c1;
            Some ((b0 - 192) * 64 + b1, r1)%N
        | _ => None
        end
      else if (b0 <? 240)%N then
        match r0 with
        | String c1 (String c2 r2) =>
            b1 ← continuation_bits c1;
            b2 ← continuation_bits c2;
            let cp := ((b0 - 224) * 4096 + b1 * 64 + b2)%N in
            if (2048 <=? cp)%N then Some (cp, r2) else None
        | _ => None
        end
      else if (b0 <? 245)%N then
        match r0 with
        | String c1 (String c2 (String c3 r3)) =>
            b1 ← continuation_bits c1;
            b2 ← continuation_bits c2;
            b3 ← continuation_bits c3;
            let cp := ((b0 - 240) * 262144 + b1 * 4096 + b2 * 64 + b3)%N in
            if (65536 <=? cp)%N then Some (cp, r3) else None
        | _ => None
        end
      else None
  end.

(** The decimal digits of Unicode 14 (category Nd), as runs of code points:
    the first code point of a run and its length.  A run starts at the digit
    zero of a script and counts upwards; the run of the mathematical digits
    holds five sets of ten. *)
Definition digit_runs : list (N * N) :=
  [(48, 10); (1632, 10); (1776, 10); (1984, 10); (2406, 10); (2534, 10);
   (2662, 10); (2790, 10); (2918, 10); (3046, 10); (3174, 10); (3302, 10);
   (3430, 10); (3558, 10); (3664, 10); (3792, 10); (3872, 10); (4160, 10);
   (4240, 10); (6112, 10); (6160, 10); (6470, 10); (6608, 10); (6784, 10);
   (6800, 10); (6992, 10); (7088, 10); (7232, 10); (7248, 10); (42528, 10);
   (43216, 10); (43264, 10); (43472, 10); (43504, 10); (43600, 10);
   (44016, 10); (65296, 10); (66720, 10); (68912, 10); (69734, 10);
   (69872, 10); (69942, 10); (70096, 10); (70384, 10); (70736, 10);
   (70864, 10); (71248, 10); (71360, 10); (71472, 10); (71904, 10);
   (72016, 10); (72784, 10); (73040, 10); (73120, 10); (92768, 10);
   (92864, 10); (93008, 10); (120782, 50); (123200, 10); (123632, 10);
   (125264, 10); (130032, 10)]%N.

Definition in_run (cp : N) (run : N * N) : bool :=
  ((fst run <=? cp) && (cp <? fst run + snd run))%N.

(** The value of a decimal digit. *)
Definition decimal_value (cp : N) : option nat :=
  match List.find (in_run cp) digit_runs with
  | Some run => Some (N.to_nat ((cp - fst run) mod 10))
  | None => None
  end.

(** [\d]: one decimal digit at the head of the string. *)
Definition unicode_digit (s : string) : option (nat * string) :=
  match decode_code_point s with
  | Some (cp, rest) =>
      match decimal_value cp with
      | Some d => Some (d, rest)
      | None => None
      end
  | None => None
  end.

Definition digit_of (c : ascii) : option nat :=
  let n := nat_of_ascii c in
  if (48 <=? n)%nat && (n <=? 57)%nat then Some (n - 48) else None.

Definition in_range (lo hi : nat) (c : ascii) : option nat :=
  match digit_of c with
  | Some d => if (lo <=? d)%nat && (d <=? hi)%nat then Some d else None
  | None => None
  end.

(** One alternative of a group: the value it reads and the rest of the
    string. *)
Definition alternative := string -> option (nat * string).

Definition two_chars (first second : ascii -> option nat) : alternative :=
  fun s =>
    match s with
    | String a (String b rest) =>
        match first a, second b with
        | Some x, Some y => Some (10 * x + y, rest)
        | _, _ => None
        end
    | _ => None
    end.

Definition one_char (only : ascii -> option nat) : alternative :=
  fun s =>
    match s with
    | String a rest =>
        match only a with
        | Some x => Some (x, rest)
        | None => None
        end
    | _ => None
    end.

(** A character of a class, then [\d]. *)
Definition char_then_digit (first : ascii -> option nat) : alternative :=
  fun s =>
    match s with
    | String a rest =>
        match first a, unicode_digit rest with
        | Some x, Some (y, rest') => Some (10 * x + y, rest')
        | _, _ => None
        end
    | _ => None
    end.

Definition space_then (only : ascii -> option nat) : alternative :=
  fun s =>
    match s with
    | String a rest => if Ascii.eqb a " " then one_char only rest else None
    | _ => None
    end.

(** Ordered choice with backtracking into the continuation [k]. *)
Fixpoint first_match {A} (alts : list alternative) (k : nat -> string -> option A)
  (s : string) : option A :=
  match alts with
  | [] => None
  | alt :: others =>
      match alt s with
      | Some (n, rest) =>
          match k n rest with
          | Some a => Some a
          | None => first_match others k s
          end
      | None => first_match others k s
      end
  end.

Definition year_group : alternative :=
  fun s =>
    '(x, s) ← unicode_digit s;
    '(y, s) ← unicode_digit s;
    '(z, s) ← unicode_digit s;
    '(w, s) ← unicode_digit s;
    Some (1000 * x + 100 * y + 10 * z + w, s).

Definition month_group : list alternative :=
  [ two_chars (in_range 1 1) (in_range 0 2);
    two_chars (in_range 0 0) (in_range 1 9);
    one_char (in_range 1 9) ].

Definition day_group : list alternative :=
  [ two_chars (in_range 3 3) (in_range 0 1);
    char_then_digit (in_range 1 2);
    two_chars (in_range 0 0) (in_range 1 9);
    one_char (in_range 1 9);
    space_then (in_range 1 9) ].

Definition hyphen {A} (k : string -> option A) (s : string) : option A :=
  match s with
  | String c rest => if Ascii.eqb c "-" then k rest else None
  | _ => None
  end.

(** The match of the whole expression: year, month, day and what is left. *)
Definition match_ymd (s : string) : option (nat * nat * nat * string) :=
  first_match [year_group]
    (fun y => hyphen (first_match month_group
      (fun m => hyphen (first_match day_group
        (fun d rest => Some (y, m, d, rest)))))) s.

Definition is_leap (y : nat) : bool :=
  ((y mod 4 =? 0) && negb (y mod 100 =? 0) || (y mod 400 =? 0))%nat.

Definition days_in_month (y m : nat) : nat :=
  match m with
  | 2 => if is_leap y then 29 else 28
  | 4 | 6 | 9 | 11 => 30
  | _ => 31
  end.

Record date := { year : nat; month : nat; day : nat }.

Definition strptime (s : string) : result date :=
  match match_ymd s with
  | None => Raise (ValueError "time data does not match format")
  | Some (y, m, d, rest) =>
      if negb (String.eqb rest "") then Raise (ValueError "unconverted data remains")
      else if (y <? 1)%nat then Raise (ValueError "year is out of range")
      else if (days_in_month y m <? d)%nat then
        Raise (ValueError "day is out of range for month")
      else Ok {| year := y; month := m; day := d |}
  end.

(** *** [strftime('%B %Y')], in the C locale, by the C library of Linux *)

Definition month_name (m : nat) : string :=
  match m with
  | 1 => "January" | 2 => "February" | 3 => "March" | 4 => "April"
  | 5 => "May" | 6 => "June" | 7 => "July" | 8 => "August"
  | 9 => "September" | 10 => "October" | 11 => "November" | _ => "December"
  end.

(** [%Y]: the year as a decimal numeral; no zeros are put before a year
    below 1000. *)
Definition year_digits (y : nat) : string := pretty y.

Definition strftime (d : date) : string :=
  month_name (month d) +:+ " " +:+ year_digits (year d).

(** [earliest] and [latest], bound only when [dates] is not empty. *)
Definition date_range (data : json) : result (option (string * string)) :=
  ds ← collect_dates data;
  dates ← py_sorted ds;
  match dates with
  | [] => Ok None
  | first :: _ =>
      e ← strptime first;
      l ← strptime (List.last dates first);
      Ok (Some (strftime e, strftime l))
  end.

(** ** The world of one run *)

(** The data file as [open] and [json.load] see it: no such file; bytes
    that are not UTF-8, on which [f.read()] inside [json.load] raises
    [UnicodeDecodeError]; text that is not JSON, with the message of the
    [JSONDecodeError]; or the value parsed. *)
Inductive data_source : Type :=
| Absent
| Undecodable
| Malformed (message : string)
| Parsed (data : json).

(** Text as a UTF-8 file holds it and [read] returns it: it has no lone
    surrogate, which the codec neither reads nor writes. *)
Record text := {
  text_bytes : string;
  text_ok : has_surrogate text_bytes = false
}.

Definition as_text (s : string) : option text :=
  match Bool.bool_dec (has_surrogate s) false with
  | left ok => Some {| text_bytes := s; text_ok := ok |}
  | right _ => None
  end.

(** The three files and the console.  A file that does not exist is [None]
    (the data file: [Absent]); a text file is the text that [read] returns
    and that [write] is given.  A template that is not UTF-8 is outside the
    model. *)
Record world := {
  data_file : data_source;           (* dougs_dharma_index.json *)
  template_text : option text;       (* template.html *)
  output_file : option string;       (* index.html *)
  console : list string              (* lines printed so far *)
}.

(** What [f.read()] returns for template.html, if the file exists. *)
Definition template_file (w : world) : option string :=
  option_map text_bytes (template_text w).

(** The world with the given data file, template, index.html and console,
    for a template that is text. *)
Definition a_world (d : data_source) (t : option string) (o : option string)
  (c : list string) : world :=
  {| data_file := d;
     template_text := match t with Some s => as_text s | None => None end;
     output_file := o;
     console := c |}.

(** How a run ends: it reaches the last line, calls [sys.exit], or dies of an
    uncaught exception. *)
Inductive ending : Type :=
| Finished
| SysExit (code : Z)
| Uncaught (e : exn).

Definition exit_code (e : ending) : Z :=
  match e with
  | Finished => 0
  | SysExit code => code
  | Uncaught _ => 1
  end.

Inductive outcome (A : Type) : Type :=
| Continue (a : A) (w : world)
| Stop (e : ending) (w : world).
Arguments Continue {A} a w.
Arguments Stop {A} e w.

Definition script (A : Type) : Type := world -> outcome A.

#[global] Instance script_ret : MRet script := fun A a w => Continue a w.
#[global] Instance script_bind : MBind script := fun A B f m w =>
  match m w with
  | Continue a w' => f a w'
  | Stop e w' => Stop e w'
  end.

Definition print (line : string) : script unit :=
  fun w => Continue tt {| data_file := data_file w;
                          template_text := template_text w;
                          output_file := output_file w;
                          console := console w ++ [line] |}.

Definition sys_exit {A} (code : Z) : script A := fun w => Stop (SysExit code) w.

(** A pure computation inside the script: its exception is not caught. *)
Definition eval {A} (r : result A) : script A :=
  fun w =>
    match r with
    | Ok a => Continue a w
    | Raise e => Stop (Uncaught e) w
    end.

Definition open_data : script data_source := fun w => Continue (data_file w) w.
Definition open_template : script (option string) := fun w => Continue (template_file w) w.

(** [with open('index.html', 'w', encoding='utf-8') as f: f.write(html)].
    [open] empties the file.  [f.write] encodes the text; on a lone
    surrogate it raises [UnicodeEncodeError], nothing of the text reaches
    the file, and the exception leaves the [with] block uncaught.
    Otherwise the file holds the text when the block is left. *)
Definition write_output (html : string) : script unit :=
  fun w =>
    if has_surrogate html then
      Stop (Uncaught UnicodeEncodeError)
           {| data_file := data_file w;
              template_text := template_text w;
              output_file := Some "";
              console := console w |}
    else
      Continue tt {| data_file := data_file w;
                     template_text := template_text w;
                     output_file := Some html;
                     console := console w |}.

Definition str (n : nat) : string := pretty n.

(** ** The script *)

(** Step 1 (lines 30-48): both handlers print and call [sys.exit(1)]; the
    [len(data)] of the report is inside the [try] but its [TypeError] is not
    among the exceptions caught, and neither is the [UnicodeDecodeError] of
    a file that is not UTF-8. *)
Definition load_data : script json :=
  src ← open_data;
  match src with
  | Absent =>
      print "  ✗ ERROR: dougs_dharma_index.json not found!";;
      print "    Make sure this file is in the same folder as build.py";;
      sys_exit 1
  | Undecodable => eval (Raise UnicodeDecodeError)
  | Malformed e =>
      print "  ✗ ERROR: dougs_dharma_index.json has a formatting error!";;
      print ("    " +:+ e);;
      print "";;
      print "  Common causes:";;
      print "    - A missing comma between entries";;
      print "    - A missing quotation mark";;
      print "    - A stray character";;
      print "";;
      print "  The error is near the line number shown above.";;
      sys_exit 1
  | Parsed data =>
      n ← eval (py_len_json data);
      print ("  ✓ Loaded " +:+ str n +:+ " videos from dougs_dharma_index.json");;
      mret data
  end.

(** Step 4 (lines 80-86). *)
Definition load_template : script string :=
  t ← open_template;
  match t with
  | Some html => print "  ✓ Loaded template.html";; mret html
  | None => print "  ✗ ERROR: template.html not found!";; sys_exit 1
  end.

Definition en_dash : string := " – ".

(** Step 5 (lines 89-92): the four replacements that always happen. *)
Definition fill_counts (html compact_json : string) (videos topics suttas : nat) : string :=
  let html := replace "PLACEHOLDER_DATA" compact_json html in
  let html := replace "PLACEHOLDER_VIDEO_COUNT" (str videos) html in
  let html := replace "PLACEHOLDER_TOPIC_COUNT" (str topics) html in
  replace "PLACEHOLDER_SUTTA_COUNT" (str suttas) html.

(** Lines 96-100: the fifth replacement, under [if dates:]. *)
Definition fill_date_range (html : string) (range : option (string * string)) : string :=
  match range with
  | Some (earliest, latest) =>
      replace "PLACEHOLDER_DATE_RANGE" (earliest +:+ en_dash +:+ latest) html
  | None => html
  end.

(** The whole of build.py after the change of directory. *)
Definition build : script unit :=
  print "Building Doug's Dharma Video Index...";;
  print "";;
  data ← load_data;
  compacted ← eval (compact data);
  let compact_json := json_dumps (JArr compacted) in
  print ("  ✓ Compacted data (" +:+ str (py_len compact_json / 1024) +:+ " KB)");;
  sets ← eval (count_stats data);
  let all_topics := fst sets in
  let all_suttas := snd sets in
  html ← load_template;
  videos ← eval (py_len_json data);
  let html := fill_counts html compact_json videos (size all_topics) (size all_suttas) in
  range ← eval (date_range data);
  let html := fill_date_range html range in
  write_output html;;
  print ("  ✓ Created index.html (" +:+ str (py_len html / 1024) +:+ " KB)");;
  print "";;
  print ("  Stats: " +:+ str videos +:+ " videos, " +:+ str (size all_topics)
         +:+ " topics, " +:+ str (size all_suttas) +:+ " suttas");;
  match range with
  | None => eval (Raise (NameError "earliest"))
  | Some (earliest, latest) =>
      print ("  Date range: " +:+ earliest +:+ en_dash +:+ latest);;
      print "";;
      print "Done! You can now:";;
      print "  - Open index.html in your browser to preview";;
      print "  - Push to GitHub to publish (see the guide)"
  end.

(** One invocation: how it ends and the world it leaves. *)
Definition run (w : world) : ending * world :=
  match build w with
  | Continue _ w' => (Finished, w')
  | Stop e w' => (e, w')
  end.

Definition say (lines : list string) (w : world) : world :=
  {| data_file := data_file w;
     template_text := template_text w;
     output_file := output_file w;
     console := console w ++ lines |}.

(** ** The data model, as predicates on JSON values

    These are the notions the properties below are stated with: what a
    record has, what it lacks, and when it is valid. *)

Definition is_object (v : json) : bool :=
  match v with JObj _ => true | _ => false end.

Definition is_string (v : json) : bool :=
  match v with JStr _ => true | _ => false end.

Definition field (k : string) (v : json) : option json :=
  match v with
  | JObj kvs => dict_lookup k kvs
  | _ => None
  end.

Definition has_field (k : string) (v : json) : bool :=
  match field k v with Some _ => true | None => false end.

(** The entries of a sequence field; none when the field is absent. *)
Definition entries (k : string) (v : json) : list json :=
  match field k v with
  | Some (JArr xs) => xs
  | _ => []
  end.

(** A sequence field is absent, or is a list whose entries satisfy [p]. *)
Definition optional_seq (k : string) (p : json -> bool) (v : json) : bool :=
  match field k v with
  | None => true
  | Some (JArr xs) => forallb p xs
  | Some _ => false
  end.

Definition valid_sutta_ref (s : json) : bool :=
  is_object s && match field "sutta_id" s with Some (JStr _) => true | _ => false end.

Definition valid_related_video (r : json) : bool :=
  is_object r && has_field "title" r && has_field "url" r.

(** A valid record: an object with the required fields, whose sequence
    fields, where present, are lists of the right entries. *)
Definition valid_record (v : json) : bool :=
  is_object v && has_field "title" v && has_field "youtube_url" v
  && optional_seq "topics" is_string v
  && optional_seq "sutta_refs" valid_sutta_ref v
  && optional_seq "other_refs" is_object v
  && optional_seq "related_videos" valid_related_video v.

(** A record of the right shape, whatever fields it has: an object whose
    reference lists, where present, are lists of objects. *)
Definition shaped (v : json) : bool :=
  is_object v
  && optional_seq "sutta_refs" is_object v
  && optional_seq "other_refs" is_object v
  && optional_seq "related_videos" is_object v.

(** The record lacks a required field: its own [title] or [youtube_url], the
    [sutta_id] of a sutta reference, the [title] or [url] of a related
    video. *)
Definition lacks_required (v : json) : bool :=
  negb (has_field "title" v) || negb (has_field "youtube_url" v)
  || existsb (fun s => negb (has_field "sutta_id" s)) (entries "sutta_refs" v)
  || existsb (fun r => negb (has_field "title" r) || negb (has_field "url" r))
             (entries "related_videos" v).

Definition missing (k : string) (v : json) : list string :=
  if has_field k v then [] else [k].

(** The required fields a record lacks, in the order the compactor reads
    them. *)
Definition missing_fields (v : json) : list string :=
  missing "title" v ++ missing "youtube_url" v
  ++ flat_map (missing "sutta_id") (entries "sutta_refs" v)
  ++ flat_map (fun r => missing "title" r ++ missing "url" r) (entries "related_videos" v).

(** [reads r ks]: the computation [r] reads required fields of which [ks]
    are missing; it succeeds when none is, and raises [KeyError] on the
    first otherwise. *)
Definition reads {A} (r : result A) (ks : list string) : Prop :=
  match ks with
  | [] => exists a, r = Ok a
  | k :: _ => r = Raise (KeyError k)
  end.

(** The record has a non-empty date value. *)
Definition has_date (v : json) : bool :=
  match field "date" v with
  | Some d => truthy d
  | None => false
  end.

(** The non-empty date values of a list of records, in the order of the
    records. *)
Definition nonempty_dates (vs : list json) : list json :=
  omap (fun v => match field "date" v with
                 | Some d => if truthy d then Some d else None
                 | None => None
                 end) vs.

(** All topic strings and all sutta ids of a list of records, with
    repetitions. *)
Definition topic_strings (vs : list json) : list string :=
  flat_map (fun v => omap as_str (entries "topics" v)) vs.

Definition sutta_ids (vs : list json) : list string :=
  flat_map (fun v => omap (fun s => field "sutta_id" s ≫= as_str) (entries "sutta_refs" v)) vs.

(** The number of distinct strings of a list. *)
Definition distinct (l : list string) : nat := length (remove_dups l).

(** What [compact_sutta_ref] is to produce from a sutta reference. *)
Definition abbreviates_sutta_ref (s c : json) : Prop :=
  exists kvs,
    c = JObj kvs /\ map fst kvs = ["id"; "url"; "l"] /\
    dict_lookup "id" kvs = field "sutta_id" s /\
    dict_lookup "url" kvs = Some (default (JStr "") (field "url" s)) /\
    dict_lookup "l" kvs =
      Some (match field "label" s with
            | Some l => if truthy l then l else JStr ""
            | None => JStr ""
            end).

Definition abbreviates_other_ref (r c : json) : Prop :=
  exists kvs,
    c = JObj kvs /\ map fst kvs = ["type"; "label"; "url"] /\
    dict_lookup "type" kvs = Some (default (JStr "") (field "type" r)) /\
    dict_lookup "label" kvs = Some (default (JStr "") (field "label" r)) /\
    dict_lookup "url" kvs = Some (default (JStr "") (field "url" r)).

Definition abbreviates_related_video (r c : json) : Prop :=
  exists kvs,
    c = JObj kvs /\ map fst kvs = ["t"; "u"] /\
    dict_lookup "t" kvs = field "title" r /\
    dict_lookup "u" kvs = field "url" r.

(** The abbreviation mapping: [c] is the compact form of the record [v]. *)
Definition abbreviates (v c : json) : Prop :=
  exists kvs sr or rv,
    c = JObj kvs /\
    map fst kvs = ["t"; "d"; "u"; "s"; "tp"; "sr"; "or"; "rv"] /\
    dict_lookup "t" kvs = field "title" v /\
    dict_lookup "u" kvs = field "youtube_url" v /\
    dict_lookup "d" kvs = Some (default (JStr "") (field "date" v)) /\
    dict_lookup "s" kvs = Some (default (JStr "") (field "summary" v)) /\
    dict_lookup "tp" kvs = Some (default (JArr []) (field "topics" v)) /\
    dict_lookup "sr" kvs = Some (JArr sr) /\
    Forall2 abbreviates_sutta_ref (entries "sutta_refs" v) sr /\
    dict_lookup "or" kvs = Some (JArr or) /\
    Forall2 abbreviates_other_ref (entries "other_refs" v) or /\
    dict_lookup "rv" kvs = Some (JArr rv) /\
    Forall2 abbreviates_related_video (entries "related_videos" v) rv.

(** [t] occurs in [s]. *)
Definition occurs_in (t s : string) : Prop :=
  exists a b, s = a +:+ t +:+ b.

(** The non-empty suffixes of a string. *)
Fixpoint suffixes (s : string) : list string :=
  match s with
  | EmptyString => []
  | String _ rest => s :: suffixes rest
  end.



(** Lexicographic order on strings. *)
Definition str_le (a b : string) : Prop := String.leb a b = true.

(** A valid input list. *)
Definition valid_list (vs : list json) : bool := forallb valid_record vs.

(** What a run prints, by stage. *)
Definition banner : list string :=
  ["Building Doug's Dharma Video Index..."; ""].

Definition not_found_guidance : list string :=
  ["  ✗ ERROR: dougs_dharma_index.json not found!";
   "    Make sure this file is in the same folder as build.py"].

Definition loaded (videos : nat) : list string :=
  ["  ✓ Loaded " +:+ str videos +:+ " videos from dougs_dharma_index.json"].

Definition progress (videos : nat) (compact_json : string) : list string :=
  banner ++ loaded videos ++
  ["  ✓ Compacted data (" +:+ str (py_len compact_json / 1024) +:+ " KB)";
   "  ✓ Loaded template.html"].

Definition report (html : string) (videos topics suttas : nat) : list string :=
  ["  ✓ Created index.html (" +:+ str (py_len html / 1024) +:+ " KB)";
   "";
   "  Stats: " +:+ str videos +:+ " videos, " +:+ str topics
     +:+ " topics, " +:+ str suttas +:+ " suttas"].

Definition closing (earliest latest : string) : list string :=
  ["  Date range: " +:+ earliest +:+ en_dash +:+ latest;
   "";
   "Done! You can now:";
   "  - Open index.html in your browser to preview";
   "  - Push to GitHub to publish (see the guide)"].

(** The world after a run that wrote [html] and printed [lines]. *)
Definition wrote (html : string) (lines : list string) (w : world) : world :=
  {| data_file := data_file w;
     template_text := template_text w;
     output_file := Some html;
     console := console w ++ lines |}.

(** What a run does to the world: the lines it prints and the text it
    writes to index.html, if it writes. *)
Definition apply_effect (lines : list string) (written : option string) (w : world) : world :=
  {| data_file := data_file w;
     template_text := template_text w;
     output_file := match written with Some html => Some html | None => output_file w end;
     console := console w ++ lines |}.

(** A computation whose result and effect are fixed by the two input
    files. *)
Definition determined {A} (m : script A) : Prop :=
  forall d t, exists (r : A + ending) lines written,
    forall w, data_file w = d -> template_file w = t ->
      m w = match r with
            | inl a => Continue a (apply_effect lines written w)
            | inr e => Stop e (apply_effect lines written w)
            end.


Definition compacted (compact_json : string) : list string :=
  ["  ✓ Compacted data (" +:+ str (py_len compact_json / 1024) +:+ " KB)"].

Definition is_array (v : json) : bool :=
  match v with JArr _ => true | _ => false end.

(** A value no [set] can hold. *)
Definition is_container (v : json) : bool :=
  match v with JArr _ | JObj _ => true | _ => false end.

(** The fields of a record that compaction reads. *)
Definition record_fields : list string :=
  ["title"; "date"; "youtube_url"; "summary"; "topics"; "sutta_refs";
   "other_refs"; "related_videos"].

(** The five placeholder tokens. *)
Definition placeholders : list string :=
  ["PLACEHOLDER_DATA"; "PLACEHOLDER_VIDEO_COUNT"; "PLACEHOLDER_TOPIC_COUNT";
   "PLACEHOLDER_SUTTA_COUNT"; "PLACEHOLDER_DATE_RANGE"].

(** [t] starts some non-empty suffix of [s]: the test for [occurs_in] on
    given strings. *)
Definition occurs_inb (t s : string) : bool :=
  existsb (String.prefix t) (suffixes s).

(** [t] starts no suffix of [s] but [t] itself. *)
Definition occurs_last_only (t s : string) : bool :=
  forallb (fun u => negb (String.prefix t u) || String.eqb u t) (suffixes s).

Definition is_digit (c : ascii) : bool :=
  match digit_of c with Some _ => true | None => false end.

(** A date written in full: four digits, two digits, two digits, with
    hyphens between them. *)
Definition is_iso_date (s : string) : bool :=
  match s with
  | String y1 (String y2 (String y3 (String y4 (String h1
      (String m1 (String m2 (String h2 (String d1 (String d2 EmptyString))))))))) =>
      is_digit y1 && is_digit y2 && is_digit y3 && is_digit y4
      && Ascii.eqb h1 "-" && is_digit m1 && is_digit m2
      && Ascii.eqb h2 "-" && is_digit d1 && is_digit d2
  | _ => false
  end.

(** The order of the calendar. *)
Definition date_compare (a b : date) : comparison :=
  match Nat.compare (year a) (year b) with
  | Eq => match Nat.compare (month a) (month b) with
          | Eq => Nat.compare (day a) (day b)
          | ne => ne
          end
  | ne => ne
  end.

Definition not_after (a b : date) : Prop := date_compare a b ≠ Gt.

(** What an alternative of the month group, and of the day group, reads off
    the head of a string: the number and the rest. *)
Inductive month_read : string -> nat -> string -> Prop :=
| month_two c1 c2 n1 n2 rest :
    digit_of c1 = Some n1 -> digit_of c2 = Some n2 ->
    1 <= 10 * n1 + n2 <= 12 ->
    month_read (String c1 (String c2 rest)) (10 * n1 + n2) rest
| month_one c n rest :
    digit_of c = Some n -> 1 <= n <= 9 -> month_read (String c rest) n rest.

Inductive day_read : string -> nat -> string -> Prop :=
| day_two c1 c2 n1 n2 rest :
    digit_of c1 = Some n1 -> digit_of c2 = Some n2 ->
    1 <= 10 * n1 + n2 <= 31 ->
    day_read (String c1 (String c2 rest)) (10 * n1 + n2) rest
| day_any c1 n1 n2 s rest :
    digit_of c1 = Some n1 -> 1 <= n1 <= 2 -> unicode_digit s = Some (n2, rest) ->
    day_read (String c1 s) (10 * n1 + n2) rest
| day_one c n rest :
    digit_of c = Some n -> 1 <= n <= 9 -> day_read (String c rest) n rest
| day_space c n rest :
    digit_of c = Some n -> 1 <= n <= 9 -> day_read (String " " (String c rest)) n rest.

(** A date written in full and the date its digits spell. *)
Inductive iso_of : string -> date -> Prop :=
| iso_intro y1 y2 y3 y4 m1 m2 d1 d2 a1 a2 a3 a4 b1 b2 e1 e2 :
    digit_of y1 = Some a1 -> digit_of y2 = Some a2 ->
    digit_of y3 = Some a3 -> digit_of y4 = Some a4 ->
    digit_of m1 = Some b1 -> digit_of m2 = Some b2 ->
    digit_of d1 = Some e1 -> digit_of d2 = Some e2 ->
    iso_of (String y1 (String y2 (String y3 (String y4 (String "-"
              (String m1 (String m2 (String "-" (String d1 (String d2 ""))))))))))
           {| year := 1000 * a1 + 100 * a2 + 10 * a3 + a4;
              month := 10 * b1 + b2;
              day := 10 * e1 + e2 |}.

(** [s'] is [s] with the occurrences of [old] replaced by [new]: the
    occurrences found from left to right, each behind the one before. *)
Inductive replaces (old new : string) : string -> string -> Prop :=
| replaces_none s : ~ occurs_in old s -> replaces old new s s
| replaces_first a b b' :
    (forall x y, a +:+ old = x +:+ old +:+ y -> y = "") ->
    replaces old new b b' ->
    replaces old new (a +:+ old +:+ b) (a +:+ new +:+ b').

(** The decimal numeral of a number: its digits, the most significant
    first, with no zero in front. *)
Definition digit_char (d : nat) : ascii := ascii_of_nat (48 + d).

Inductive numeral : nat -> string -> Prop :=
| numeral_digit d : d < 10 -> numeral d (String (digit_char d) "")
| numeral_more n d s :
    0 < n -> d < 10 -> numeral n s ->
    numeral (10 * n + d) (s +:+ String (digit_char d) "").

(** The template after the four replacements that always happen: the
    compact JSON for PLACEHOLDER_DATA, then the numerals of the three counts,
    each replacement made in the text the one before has left. *)
Definition counts_filled (tpl compact_json : string) (videos topics suttas : nat)
  (page : string) : Prop :=
  exists nv nt ns h1 h2 h3,
    numeral videos nv /\ numeral topics nt /\ numeral suttas ns
    /\ replaces "PLACEHOLDER_DATA" compact_json tpl h1
    /\ replaces "PLACEHOLDER_VIDEO_COUNT" nv h1 h2
    /\ replaces "PLACEHOLDER_TOPIC_COUNT" nt h2 h3
    /\ replaces "PLACEHOLDER_SUTTA_COUNT" ns h3 page.

(** The fifth replacement: made with the two rendered dates when there is a
    date, not made at all when there is none. *)
Definition range_filled (range : option (string * string)) (h page : string) : Prop :=
  match range with
  | Some (earliest, latest) =>
      replaces "PLACEHOLDER_DATE_RANGE" (earliest +:+ " – " +:+ latest) h page
  | None => page = h
  end.

(** A date as the page shows it: the English name of the month, a space
    and the decimal numeral of the year. *)
Definition rendered (d : date) (shown : string) : Prop :=
  exists y, numeral (year d) y /\ shown = month_name (month d) +:+ " " +:+ y.

(** No byte of the string is below 32: the text holds none of the control
    characters U+0000 to U+001F, among them the line feed, the carriage
    return and the tab.  (DEL, the controls U+0080 to U+009F and the
    separators U+2028 and U+2029 are not among them.) *)
Fixpoint no_c0_control (s : string) : bool :=
  match s with
  | EmptyString => true
  | String c rest => (32 <=? nat_of_ascii c)%nat && no_c0_control rest
  end.

(** A character that [json.dumps] writes as it is: not below U+0020, no
    quote, no backslash. *)
Definition plain_char (c : ascii) : bool :=
  (32 <=? nat_of_ascii c)%nat && negb (Ascii.eqb c dquote) && negb (Ascii.eqb c backslash).

Fixpoint plain (s : string) : bool :=
  match s with
  | EmptyString => true
  | String c rest => plain_char c && plain rest
  end.

(** ** Sample data *)

Module Sample.

Definition video_a : json :=
  JObj [("title", JStr "Right View"); ("date", JStr "2021-03-05");
        ("youtube_url", JStr "https://youtu.be/a");
        ("topics", JArr [JStr "view"; JStr "path"; JStr "view"]);
        ("sutta_refs", JArr [JObj [("sutta_id", JStr "MN 9"); ("url", JNull);
                                   ("label", JNull)]]);
        ("related_videos", JArr [JObj [("title", JStr "Karma");
                                       ("url", JStr "https://youtu.be/b")]])].

Definition video_b : json :=
  JObj [("title", JStr "Karma"); ("date", JStr "2019-11-02");
        ("youtube_url", JStr "https://youtu.be/b");
        ("topics", JArr [JStr "path"; JStr "karma"])].

Definition video_c : json :=
  JObj [("title", JStr "Metta"); ("date", JStr "2020-01-01");
        ("youtube_url", JStr "https://youtu.be/c")].

(** Without a date. *)
Definition video_d : json :=
  JObj [("title", JStr "Intro"); ("youtube_url", JStr "https://youtu.be/d");
        ("date", JStr ""); ("topics", JArr [JStr "path"])].

(** Without a title. *)
Definition video_untitled : json :=
  JObj [("youtube_url", JStr "https://youtu.be/e")].

(** With a date that is no date. *)
Definition video_undated : json :=
  JObj [("title", JStr "Later"); ("date", JStr "2020-garbage");
        ("youtube_url", JStr "https://youtu.be/f")].

Definition template : string :=
  "<p>PLACEHOLDER_VIDEO_COUNT videos, PLACEHOLDER_TOPIC_COUNT topics, PLACEHOLDER_SUTTA_COUNT suttas, PLACEHOLDER_DATE_RANGE</p><script>const D=PLACEHOLDER_DATA;</script>".

Definition world_of (src : data_source) : world :=
  {| data_file := src; template_text := as_text template;
     output_file := Some "<p>old</p>"; console := [] |}.

(** Everything compaction and the counting produce for [[video_d]]. *)
Definition compacted_d : list json :=
  [JObj [("t", JStr "Intro"); ("d", JStr ""); ("u", JStr "https://youtu.be/d");
         ("s", JStr ""); ("tp", JArr [JStr "path"]);
         ("sr", JArr []); ("or", JArr []); ("rv", JArr [])]].

Definition sets_d : gset pykey * gset pykey := ({[KStr "path"]}, ∅).

Definition compacted_undated : list json :=
  [JObj [("t", JStr "Later"); ("d", JStr "2020-garbage");
         ("u", JStr "https://youtu.be/f");
         ("s", JStr ""); ("tp", JArr []);
         ("sr", JArr []); ("or", JArr []); ("rv", JArr [])]].

(** With a list among its topics. *)
Definition video_nested : json :=
  JObj [("title", JStr "Nested"); ("youtube_url", JStr "https://youtu.be/g");
        ("topics", JArr [JStr "path"; JArr [JStr "view"]])].

Definition compacted_nested : list json :=
  [JObj [("t", JStr "Nested"); ("d", JStr ""); ("u", JStr "https://youtu.be/g");
         ("s", JStr ""); ("tp", JArr [JStr "path"; JArr [JStr "view"]]);
         ("sr", JArr []); ("or", JArr []); ("rv", JArr [])]].

(** A title with a lone surrogate, as the JSON escape [\ud800] gives it. *)
Definition lone_surrogate : string :=
  String (ascii_of_nat 237) (String (ascii_of_nat 160) (String (ascii_of_nat 128) "")).

Definition video_surrogate : json :=
  JObj [("title", JStr ("Karma " +:+ lone_surrogate)); ("date", JStr "2019-11-02");
        ("youtube_url", JStr "https://youtu.be/b")].

Definition compacted_surrogate : list json :=
  [JObj [("t", JStr ("Karma " +:+ lone_surrogate)); ("d", JStr "2019-11-02");
         ("u", JStr "https://youtu.be/b");
         ("s", JStr ""); ("tp", JArr []);
         ("sr", JArr []); ("or", JArr []); ("rv", JArr [])]].

End Sample.

(** * Properties *)

(** ** The model on concrete inputs *)

Example replace_counts :
  replace "PLACEHOLDER_VIDEO_COUNT" "12"
          "<b>PLACEHOLDER_VIDEO_COUNT</b> PLACEHOLDER_VIDEO_COUNTs"
  = "<b>12</b> 12s".
Proof. reflexivity. Qed.

Example replace_overlap : replace "aa" "b" "aaaaa" = "bba".
Proof. reflexivity. Qed.

Example strptime_ok : strptime "2019-11-02" = Ok {| year := 2019; month := 11; day := 2 |}.
Proof. reflexivity. Qed.

Example strptime_feb30 : strptime "2019-02-30" = Raise (ValueError "day is out of range for month").
Proof. reflexivity. Qed.

Example strptime_trailing : strptime "2020-01-011" = Raise (ValueError "unconverted data remains").
Proof. reflexivity. Qed.

Example strptime_short : strptime "2019-1-2" = Ok {| year := 2019; month := 1; day := 2 |}.
Proof. reflexivity. Qed.

Example strptime_garbage : strptime "2020-garbage" = Raise (ValueError "time data does not match format").
Proof. reflexivity. Qed.

(** ** Loops in the result monad *)

Section Loops.
Context {A B : Type} (f : A -> result B).

Lemma for_each_Forall2 xs ys :
  for_each f xs = Ok ys -> Forall2 (fun x y => f x = Ok y) xs ys.
Proof.
  revert ys. induction xs as [|x xs IH]; intros ys; simpl.
  - intros [= <-]. constructor.
  - unfold mbind, result_bind.
    destruct (f x) as [y|e] eqn:Hx; [|discriminate].
    destruct (for_each f xs) as [ys'|e] eqn:Hxs; [|discriminate].
    intros [= <-]. constructor; auto.
Qed.

Lemma for_each_length xs ys : for_each f xs = Ok ys -> length ys = length xs.
Proof.
  intros H. apply for_each_Forall2 in H. symmetry. exact (Forall2_length _ _ _ H).
Qed.

Lemma for_each_total xs :
  Forall (fun x => exists y, f x = Ok y) xs -> exists ys, for_each f xs = Ok ys.
Proof.
  induction 1 as [|x xs [y Hy] _ [ys Hys]]; simpl.
  - eauto.
  - unfold mbind, result_bind. rewrite Hy, Hys. eauto.
Qed.

(** The loop stops at the first element on which the body raises. *)
Lemma for_each_first_raise pre x post e :
  Forall (fun p => exists y, f p = Ok y) pre -> f x = Raise e ->
  for_each f (pre ++ x :: post) = Raise e.
Proof.
  intros Hpre Hx. induction Hpre as [|p pre [y Hy] _ IH]; simpl.
  - unfold mbind, result_bind. now rewrite Hx.
  - unfold mbind, result_bind in *. now rewrite Hy, IH.
Qed.

Lemma for_each_some_raise xs :
  Exists (fun x => exists e, f x = Raise e) xs -> exists e, for_each f xs = Raise e.
Proof.
  induction 1 as [x xs [e He]|x xs _ [e He]]; simpl; unfold mbind, result_bind.
  - rewrite He. eauto.
  - destruct (f x); [rewrite He|]; eauto.
Qed.
End Loops.

(** ** Field access *)

Lemma py_getitem_field v k :
  is_object v = true ->
  py_getitem v k = match field k v with Some x => Ok x | None => Raise (KeyError k) end.
Proof. destruct v; try discriminate. reflexivity. Qed.

Lemma py_get_field v k d :
  is_object v = true -> py_get v k d = Ok (default d (field k v)).
Proof. destruct v; try discriminate. reflexivity. Qed.

Lemma py_getitem_Ok v k x : py_getitem v k = Ok x -> is_object v = true /\ field k v = Some x.
Proof.
  destruct v; try discriminate. simpl.
  destruct (dict_lookup k kvs); [intros [= ->]; auto | discriminate].
Qed.

Lemma py_get_Ok v k d x : py_get v k d = Ok x -> is_object v = true /\ x = default d (field k v).
Proof. destruct v; try discriminate. simpl. intros [= <-]. auto. Qed.

(** Splitting a computation [x ← m; k x] that succeeded. *)
Lemma bind_Ok {A B} (m : result A) (k : A -> result B) b :
  (m ≫= k) = Ok b -> exists a, m = Ok a /\ k a = Ok b.
Proof. destruct m; [eauto | discriminate]. Qed.

Ltac split_bind H :=
  let a := fresh "a" in
  let Ha := fresh "H" a in
  apply bind_Ok in H; destruct H as (a & Ha & H).

Tactic Notation "split_bind_as" hyp(H) ident(a) ident(Ha) :=
  apply bind_Ok in H; destruct H as (a & Ha & H).

(** ** Compaction of one record *)

Lemma compact_sutta_ref_abbreviates s c :
  compact_sutta_ref s = Ok c -> abbreviates_sutta_ref s c.
Proof.
  unfold compact_sutta_ref. intros H.
  split_bind H. split_bind H. split_bind H. injection H as <-.
  apply py_getitem_Ok in Ha as [Hobj Hid].
  apply py_get_Ok in Ha0 as [_ ->]. apply py_get_Ok in Ha1 as [_ ->].
  eexists. split; [reflexivity|]. repeat split; simpl; auto.
  destruct (field "label" s); reflexivity.
Qed.

Lemma compact_other_ref_abbreviates r c :
  compact_other_ref r = Ok c -> abbreviates_other_ref r c.
Proof.
  unfold compact_other_ref. intros H.
  split_bind H. split_bind H. split_bind H. injection H as <-.
  apply py_get_Ok in Ha as [_ ->]. apply py_get_Ok in Ha0 as [_ ->].
  apply py_get_Ok in Ha1 as [_ ->].
  eexists. split; [reflexivity|]. repeat split.
Qed.

Lemma compact_related_video_abbreviates r c :
  compact_related_video r = Ok c -> abbreviates_related_video r c.
Proof.
  unfold compact_related_video. intros H.
  split_bind H. split_bind H. injection H as <-.
  apply py_getitem_Ok in Ha as [_ Ht]. apply py_getitem_Ok in Ha0 as [_ Hu].
  eexists. split; [reflexivity|]. repeat split; simpl; auto.
Qed.

(** A comprehension over a field that is no list can only succeed on an
    empty dict or string: the keys and characters it would iterate over are
    strings, on which the three entry compactors raise. *)
Lemma comprehension_entries (f : json -> result json) v k l ys :
  (forall s, exists e, f (JStr s) = Raise e) ->
  py_iter (default (JArr []) (field k v)) = Ok l ->
  for_each f l = Ok ys ->
  Forall2 (fun x y => f x = Ok y) (entries k v) ys.
Proof.
  intros Hstr Hiter Hfor. unfold entries.
  destruct (field k v) as [[| | |s|xs|kvs]|]; simpl in Hiter; try discriminate;
    injection Hiter as <-.
  - destruct (code_points s) as [|p ps]; simpl in Hfor.
    + injection Hfor as <-. constructor.
    + destruct (Hstr p) as [e He]. unfold mbind, result_bind in Hfor.
      now rewrite He in Hfor.
  - now apply for_each_Forall2.
  - destruct kvs as [|[k' x] kvs]; simpl in Hfor.
    + injection Hfor as <-. constructor.
    + destruct (Hstr k') as [e He]. unfold mbind, result_bind in Hfor.
      now rewrite He in Hfor.
  - simpl in Hfor. injection Hfor as <-. constructor.
Qed.

Lemma compact_record_abbreviates v c :
  compact_record v = Ok c -> abbreviates v c.
Proof.
  unfold compact_record. intros H.
  do 14 split_bind H. injection H as <-.
  apply py_getitem_Ok in Ha as [Hobj Ht].
  apply py_getitem_Ok in Ha1 as [_ Hu].
  apply py_get_Ok in Ha0 as [_ ->]. apply py_get_Ok in Ha2 as [_ ->].
  apply py_get_Ok in Ha3 as [_ ->]. apply py_get_Ok in Ha4 as [_ ->].
  apply py_get_Ok in Ha7 as [_ ->]. apply py_get_Ok in Ha10 as [_ ->].
  exists [("t", a); ("d", default (JStr "") (field "date" v)); ("u", a1);
          ("s", default (JStr "") (field "summary" v));
          ("tp", default (JArr []) (field "topics" v));
          ("sr", JArr a6); ("or", JArr a9); ("rv", JArr a12)], a6, a9, a12.
  repeat split; simpl; auto.
  - eapply Forall2_impl; [eapply comprehension_entries; eauto|].
    + intros s. eexists. reflexivity.
    + intros x y. apply compact_sutta_ref_abbreviates.
  - eapply Forall2_impl; [eapply comprehension_entries; eauto|].
    + intros s. eexists. reflexivity.
    + intros x y. apply compact_other_ref_abbreviates.
  - eapply Forall2_impl; [eapply comprehension_entries; eauto|].
    + intros s. eexists. reflexivity.
    + intros x y. apply compact_related_video_abbreviates.
Qed.

(** ** Which exception compaction raises *)

Lemma reads_bind {A B} (m : result A) (k : A -> result B) ks1 ks2 :
  reads m ks1 -> (forall a, m = Ok a -> reads (k a) ks2) ->
  reads (m ≫= k) (ks1 ++ ks2).
Proof.
  destruct ks1 as [|k1 ks1]; simpl.
  - intros [a ->] H. now apply H.
  - now intros -> _.
Qed.

Lemma reads_then {A B} (m : result A) (k : A -> result B) ks :
  (exists a, m = Ok a) -> (forall a, m = Ok a -> reads (k a) ks) ->
  reads (m ≫= k) ks.
Proof. intros Hm Hk. now apply (reads_bind m k [] ks). Qed.

Lemma reads_getitem v k :
  is_object v = true -> reads (py_getitem v k) (missing k v).
Proof.
  intros Hobj. rewrite py_getitem_field by assumption.
  unfold missing, has_field. destruct (field k v); simpl; eauto.
Qed.

Lemma reads_get v k d : is_object v = true -> exists a, py_get v k d = Ok a.
Proof. intros Hobj. rewrite py_get_field by assumption. eauto. Qed.

Lemma reads_for_each {A B} (f : A -> result B) (miss : A -> list string) xs :
  Forall (fun x => reads (f x) (miss x)) xs ->
  reads (for_each f xs) (flat_map miss xs).
Proof.
  induction 1 as [|x xs Hx _ IH]; simpl.
  - eexists. reflexivity.
  - apply reads_bind; [assumption|]. intros y _.
    rewrite <- (app_nil_r (flat_map miss xs)).
    apply reads_bind; [assumption|]. intros ys _. eexists. reflexivity.
Qed.

Lemma forallb_Forall {A} (p : A -> bool) xs :
  forallb p xs = true <-> Forall (fun x => p x = true) xs.
Proof.
  induction xs as [|x xs IH]; simpl.
  - split; [constructor | reflexivity].
  - rewrite andb_true_iff, IH. split.
    + intros [Hx Hxs]. now constructor.
    + now inversion 1.
Qed.

Lemma optional_seq_entries k p v :
  optional_seq k p v = true ->
  py_iter (default (JArr []) (field k v)) = Ok (entries k v)
  /\ Forall (fun x => p x = true) (entries k v).
Proof.
  unfold optional_seq, entries.
  destruct (field k v) as [[| | | |xs|]|]; try discriminate; simpl.
  - intros H. split; [reflexivity|]. now apply forallb_Forall in H.
  - intros _. split; [reflexivity | constructor].
Qed.

Lemma reads_sutta_ref s :
  is_object s = true -> reads (compact_sutta_ref s) (missing "sutta_id" s).
Proof.
  intros Hobj. unfold compact_sutta_ref.
  rewrite <- (app_nil_r (missing "sutta_id" s)).
  apply reads_bind; [now apply reads_getitem|]. intros id _.
  apply reads_then; [now apply reads_get|]. intros url _.
  apply reads_then; [now apply reads_get|]. intros l _.
  eexists. reflexivity.
Qed.

Lemma reads_other_ref r :
  is_object r = true -> exists c, compact_other_ref r = Ok c.
Proof.
  intros Hobj. unfold compact_other_ref.
  rewrite !py_get_field by assumption. eexists. reflexivity.
Qed.

Lemma reads_related_video r :
  is_object r = true ->
  reads (compact_related_video r) (missing "title" r ++ missing "url" r).
Proof.
  intros Hobj. unfold compact_related_video.
  apply reads_bind; [now apply reads_getitem|]. intros t _.
  rewrite <- (app_nil_r (missing "url" r)).
  apply reads_bind; [now apply reads_getitem|]. intros u _.
  eexists. reflexivity.
Qed.

(** On a record of the right shape compaction fails only for a missing
    required field, with a [KeyError] that names the first one. *)
Lemma reads_record v :
  shaped v = true -> reads (compact_record v) (missing_fields v).
Proof.
  unfold shaped. rewrite !andb_true_iff. intros [[[Hobj Hsr] Hor] Hrv].
  apply optional_seq_entries in Hsr as [Hsr Hsrs].
  apply optional_seq_entries in Hor as [Hor Hors].
  apply optional_seq_entries in Hrv as [Hrv Hrvs].
  unfold compact_record, missing_fields.
  apply reads_bind; [now apply reads_getitem|]. intros t _.
  apply reads_then; [now apply reads_get|]. intros d _.
  apply reads_bind; [now apply reads_getitem|]. intros u _.
  apply reads_then; [now apply reads_get|]. intros s _.
  apply reads_then; [now apply reads_get|]. intros tp _.
  apply reads_then; [now apply reads_get|]. intros srs Hsrs'.
  apply py_get_Ok in Hsrs' as [_ ->]. rewrite Hsr.
  apply reads_then; [eauto|]. intros srl [= <-].
  apply reads_bind.
  { apply reads_for_each. eapply Forall_impl; [exact Hsrs|].
    intros x. apply reads_sutta_ref. }
  intros sr _.
  apply reads_then; [now apply reads_get|]. intros ors Hors'.
  apply py_get_Ok in Hors' as [_ ->]. rewrite Hor.
  apply reads_then; [eauto|]. intros orl [= <-].
  apply reads_then.
  { apply for_each_total. eapply Forall_impl; [exact Hors|].
    intros x. apply reads_other_ref. }
  intros or _.
  apply reads_then; [now apply reads_get|]. intros rvs Hrvs'.
  apply py_get_Ok in Hrvs' as [_ ->]. rewrite Hrv.
  apply reads_then; [eauto|]. intros rvl [= <-].
  rewrite <- (app_nil_r (flat_map _ (entries "related_videos" v))).
  apply reads_bind.
  { apply reads_for_each. eapply Forall_impl; [exact Hrvs|].
    intros x. apply reads_related_video. }
  intros rv _. eexists. reflexivity.
Qed.

Lemma optional_seq_impl k (p q : json -> bool) v :
  (forall x, p x = true -> q x = true) ->
  optional_seq k p v = true -> optional_seq k q v = true.
Proof.
  intros Hpq. unfold optional_seq.
  destruct (field k v) as [[| | | |xs|]|]; auto.
  rewrite !forallb_Forall. intros H. eapply Forall_impl; [exact H | exact Hpq].
Qed.

Lemma flat_map_nil {A B} (f : A -> list B) xs :
  Forall (fun x => f x = []) xs -> flat_map f xs = [].
Proof. induction 1 as [|x xs Hx _ IH]; simpl; [reflexivity | now rewrite Hx, IH]. Qed.

Lemma missing_nil k v : has_field k v = true -> missing k v = [].
Proof. unfold missing. now intros ->. Qed.

Lemma valid_sutta_ref_has_id s : valid_sutta_ref s = true -> has_field "sutta_id" s = true.
Proof.
  unfold valid_sutta_ref, has_field. rewrite andb_true_iff. intros [_ H].
  now destruct (field "sutta_id" s).
Qed.

(** A valid record has the right shape and misses nothing. *)
Lemma valid_record_shaped v :
  valid_record v = true -> shaped v = true /\ missing_fields v = [].
Proof.
  unfold valid_record, shaped. rewrite !andb_true_iff.
  intros [[[[[[Hobj Ht] Hu] Htp] Hsr] Hor] Hrv]. split.
  - repeat split; auto.
    + revert Hsr. apply optional_seq_impl. intros x.
      unfold valid_sutta_ref. rewrite andb_true_iff. tauto.
    + revert Hrv. apply optional_seq_impl. intros x.
      unfold valid_related_video. rewrite !andb_true_iff. tauto.
  - apply optional_seq_entries in Hsr as [_ Hsr].
    apply optional_seq_entries in Hrv as [_ Hrv].
    unfold missing_fields. rewrite !missing_nil by assumption. simpl.
    rewrite !flat_map_nil; [reflexivity| |].
    + eapply Forall_impl; [exact Hrv|]. intros r.
      unfold valid_related_video. rewrite !andb_true_iff. intros [[_ H1] H2].
      now rewrite !missing_nil.
    + eapply Forall_impl; [exact Hsr|]. intros s Hs.
      apply missing_nil. now apply valid_sutta_ref_has_id.
Qed.

Lemma valid_record_compacts v :
  valid_record v = true -> exists c, compact_record v = Ok c.
Proof.
  intros Hv. apply valid_record_shaped in Hv as [Hs Hm].
  apply reads_record in Hs. now rewrite Hm in Hs.
Qed.

Lemma valid_list_compacts vs :
  valid_list vs = true -> exists c, compact (JArr vs) = Ok c.
Proof.
  unfold valid_list. rewrite forallb_Forall. intros Hvs.
  unfold compact. simpl. apply for_each_total.
  eapply Forall_impl; [exact Hvs|]. apply valid_record_compacts.
Qed.

Lemma existsb_Exists {A} (p : A -> bool) xs :
  existsb p xs = true <-> Exists (fun x => p x = true) xs.
Proof.
  induction xs as [|x xs IH]; simpl.
  - split; [discriminate | inversion 1].
  - rewrite orb_true_iff, IH. split.
    + intros [H|H]; [now left | now right].
    + inversion 1; auto.
Qed.

Lemma Forall2_Ok_each {A B} (f : A -> result B) xs ys x :
  Forall2 (fun x y => f x = Ok y) xs ys -> x ∈ xs -> exists y, f x = Ok y.
Proof.
  induction 1 as [|x' y xs ys Hx _ IH]; intros Hin.
  - inversion Hin.
  - inversion Hin; subst; eauto.
Qed.

(** Compaction succeeds on no record that lacks a required field. *)
Lemma lacks_required_raises v :
  lacks_required v = true -> exists e, compact_record v = Raise e.
Proof.
  intros Hlack. destruct (compact_record v) as [c|e] eqn:Hc; [exfalso | eauto].
  unfold compact_record in Hc. do 14 split_bind Hc.
  apply py_getitem_Ok in Ha as [Hobj Ht]. apply py_getitem_Ok in Ha1 as [_ Hu].
  apply py_get_Ok in Ha4 as [_ ->]. apply py_get_Ok in Ha10 as [_ ->].
  assert (Hsr : Forall2 (fun x y => compact_sutta_ref x = Ok y) (entries "sutta_refs" v) a6).
  { eapply comprehension_entries; eauto. }
  assert (Hrv : Forall2 (fun x y => compact_related_video x = Ok y)
                        (entries "related_videos" v) a12).
  { eapply comprehension_entries; eauto. }
  unfold lacks_required in Hlack. rewrite !orb_true_iff in Hlack.
  unfold has_field in Hlack at 1 2. rewrite Ht, Hu in Hlack. simpl in Hlack.
  destruct Hlack as [[[H|H]|H]|H]; try discriminate.
  - apply existsb_Exists in H. apply Exists_exists in H as (s & Hin & Hs).
    destruct (Forall2_Ok_each _ _ _ s Hsr Hin) as [y Hy].
    unfold compact_sutta_ref in Hy. split_bind_as Hy id Hid.
    apply py_getitem_Ok in Hid as [_ Hid].
    unfold has_field in Hs. now rewrite Hid in Hs.
  - apply existsb_Exists in H. apply Exists_exists in H as (r & Hin & Hr).
    destruct (Forall2_Ok_each _ _ _ r Hrv Hin) as [y Hy].
    unfold compact_related_video in Hy.
    split_bind_as Hy t H1. split_bind_as Hy u H2.
    apply py_getitem_Ok in H1 as [_ H1]. apply py_getitem_Ok in H2 as [_ H2].
    unfold has_field in Hr. now rewrite H1, H2 in Hr.
Qed.

Lemma lacking_list_raises vs :
  Exists (fun v => lacks_required v = true) vs -> exists e, compact (JArr vs) = Raise e.
Proof.
  intros H. unfold compact. simpl. apply for_each_some_raise.
  eapply Exists_impl; [exact H|]. apply lacks_required_raises.
Qed.

(** ** The run, stage by stage *)

Ltac step_script :=
  cbv [run build load_data load_template open_data open_template eval print
       sys_exit write_output mbind script_bind mret script_ret py_len_json
       data_file template_file template_text text_bytes option_map
       output_file console].

Ltac tidy_world :=
  cbv [say wrote progress report closing banner loaded not_found_guidance
       data_file template_file template_text text_bytes option_map
       output_file console];
  rewrite <- ?app_assoc; simpl app.

(** The template of a world, where there is one. *)
Ltac open_template Ht :=
  match type of Ht with
  | option_map text_bytes ?t = _ =>
      destruct t as [[? ?]|]; simpl in Ht; [|discriminate Ht];
      try (injection Ht as ->)
  end.

Lemma run_absent w :
  data_file w = Absent ->
  run w = (SysExit 1, say (banner ++ not_found_guidance) w).
Proof.
  destruct w as [d t o cs]. simpl. intros ->.
  step_script. tidy_world. reflexivity.
Qed.

Lemma run_compact_raises w vs e :
  data_file w = Parsed (JArr vs) -> compact (JArr vs) = Raise e ->
  run w = (Uncaught e, say (banner ++ loaded (length vs)) w).
Proof.
  destruct w as [d t o cs]. simpl. intros -> Hc.
  step_script. rewrite Hc. tidy_world. reflexivity.
Qed.

Lemma run_dates_raise w vs c sets tpl e :
  data_file w = Parsed (JArr vs) -> compact (JArr vs) = Ok c ->
  count_stats (JArr vs) = Ok sets -> template_file w = Some tpl ->
  date_range (JArr vs) = Raise e ->
  run w = (Uncaught e, say (progress (length vs) (json_dumps (JArr c))) w).
Proof.
  destruct w as [d t o cs]. unfold template_file. simpl. intros -> Hc Hs Ht Hd.
  open_template Ht.
  step_script. rewrite Hc. step_script. rewrite Hs. step_script. rewrite Hd.
  tidy_world. reflexivity.
Qed.

Lemma run_malformed w message :
  data_file w = Malformed message ->
  fst (run w) = SysExit 1 /\ output_file (snd (run w)) = output_file w.
Proof.
  destruct w as [d t o cs]. simpl. intros ->. split; reflexivity.
Qed.

Lemma run_template_missing w vs c sets :
  data_file w = Parsed (JArr vs) -> compact (JArr vs) = Ok c ->
  count_stats (JArr vs) = Ok sets -> template_file w = None ->
  fst (run w) = SysExit 1 /\ output_file (snd (run w)) = output_file w.
Proof.
  destruct w as [d t o cs]. unfold template_file. simpl. intros -> Hc Hs Ht.
  destruct t; [discriminate|].
  step_script. rewrite Hc. step_script. rewrite Hs. split; reflexivity.
Qed.

(** A run whose stages all succeed opens index.html for writing.  Where
    the page cannot be encoded the file stays empty and the run dies of the
    [UnicodeEncodeError]; otherwise the page is written, and the run then
    ends well when there was a date, and on the unbound [earliest] when
    there was none. *)
Lemma run_writes w vs c sets tpl range :
  data_file w = Parsed (JArr vs) -> compact (JArr vs) = Ok c ->
  count_stats (JArr vs) = Ok sets -> template_file w = Some tpl ->
  date_range (JArr vs) = Ok range ->
  let topics := size (fst sets) in
  let suttas := size (snd sets) in
  let html :=
    fill_date_range
      (fill_counts tpl (json_dumps (JArr c)) (length vs) topics suttas) range in
  let lines :=
    progress (length vs) (json_dumps (JArr c)) ++ report html (length vs) topics suttas in
  run w = if has_surrogate html
          then (Uncaught UnicodeEncodeError,
                wrote "" (progress (length vs) (json_dumps (JArr c))) w)
          else match range with
               | None => (Uncaught (NameError "earliest"), wrote html lines w)
               | Some (earliest, latest) =>
                   (Finished, wrote html (lines ++ closing earliest latest) w)
               end.
Proof.
  destruct w as [d t o cs]. unfold template_file. simpl. intros -> Hc Hs Ht Hd.
  open_template Ht.
  step_script. rewrite Hc. step_script. rewrite Hs. step_script. rewrite Hd.
  step_script.
  destruct (has_surrogate (fill_date_range _ _)); [tidy_world; reflexivity|].
  destruct range as [[earliest latest]|]; step_script; tidy_world; reflexivity.
Qed.

(** Where the run does not die of the encoding, the page could be encoded
    and was written. *)
Lemma run_written w vs c sets tpl range :
  data_file w = Parsed (JArr vs) -> compact (JArr vs) = Ok c ->
  count_stats (JArr vs) = Ok sets -> template_file w = Some tpl ->
  date_range (JArr vs) = Ok range ->
  fst (run w) ≠ Uncaught UnicodeEncodeError ->
  let topics := size (fst sets) in
  let suttas := size (snd sets) in
  let html :=
    fill_date_range
      (fill_counts tpl (json_dumps (JArr c)) (length vs) topics suttas) range in
  let lines :=
    progress (length vs) (json_dumps (JArr c)) ++ report html (length vs) topics suttas in
  has_surrogate html = false
  /\ run w = match range with
             | None => (Uncaught (NameError "earliest"), wrote html lines w)
             | Some (earliest, latest) =>
                 (Finished, wrote html (lines ++ closing earliest latest) w)
             end.
Proof.
  intros Hw Hc Hs Ht Hd Henc. cbv zeta.
  rewrite (run_writes w vs c sets tpl range Hw Hc Hs Ht Hd) in *.
  cbv zeta in Henc.
  destruct (has_surrogate (fill_date_range _ _)); [now contradiction Henc|].
  split; reflexivity.
Qed.

(** ** Every way a run can go *)

Ltac step_stage :=
  cbv [run build load_data load_template open_data open_template eval print
       sys_exit write_output mbind script_bind mret script_ret
       data_file template_file template_text text_bytes option_map
       output_file console].

(** The run on a parsed data file, stage by stage: the first stage that
    raises ends the run with what has been printed so far; a missing
    template ends it with [sys.exit(1)]; otherwise index.html is opened,
    and it stays empty where the page cannot be encoded. *)
Lemma run_stages w data :
  data_file w = Parsed data ->
  run w =
  match py_len_json data with
  | Raise e => (Uncaught e, say banner w)
  | Ok videos =>
    match compact data with
    | Raise e => (Uncaught e, say (banner ++ loaded videos) w)
    | Ok c =>
      let compact_json := json_dumps (JArr c) in
      match count_stats data with
      | Raise e =>
          (Uncaught e,
           say (banner ++ loaded videos ++
                ["  ✓ Compacted data (" +:+ str (py_len compact_json / 1024) +:+ " KB)"]) w)
      | Ok sets =>
        match template_file w with
        | None =>
            (SysExit 1,
             say (banner ++ loaded videos ++
                  ["  ✓ Compacted data (" +:+ str (py_len compact_json / 1024) +:+ " KB)";
                   "  ✗ ERROR: template.html not found!"]) w)
        | Some tpl =>
          match date_range data with
          | Raise e => (Uncaught e, say (progress videos compact_json) w)
          | Ok range =>
              let topics := size (fst sets) in
              let suttas := size (snd sets) in
              let html :=
                fill_date_range (fill_counts tpl compact_json videos topics suttas) range in
              let lines := progress videos compact_json ++ report html videos topics suttas in
              if has_surrogate html
              then (Uncaught UnicodeEncodeError,
                    wrote "" (progress videos compact_json) w)
              else match range with
                   | None => (Uncaught (NameError "earliest"), wrote html lines w)
                   | Some (earliest, latest) =>
                       (Finished, wrote html (lines ++ closing earliest latest) w)
                   end
          end
        end
      end
    end
  end.
Proof.
  destruct w as [d t o cs]. simpl. intros ->. step_stage.
  destruct (py_len_json data) as [videos|e] eqn:Hlen; [|tidy_world; reflexivity].
  step_stage.
  destruct (compact data) as [c|e]; [|tidy_world; reflexivity].
  step_stage.
  destruct (count_stats data) as [sets|e]; [|tidy_world; reflexivity].
  step_stage.
  destruct t as [[tpl ok]|]; [|tidy_world; reflexivity].
  step_stage. rewrite Hlen. step_stage.
  destruct (date_range data) as [range|e]; [|tidy_world; reflexivity].
  step_stage.
  destruct (has_surrogate (fill_date_range _ _)); [tidy_world; reflexivity|].
  destruct range as [[earliest latest]|]; step_stage; tidy_world; reflexivity.
Qed.

(** ** The sets of step 3 *)

#[local] Set Warnings "-clear-no-such-hyp".

Lemma for_fold_add_topic ts (acc : gset pykey) :
  Forall (fun t => is_string t = true) ts ->
  for_fold add_topic ts acc = Ok (list_to_set (KStr <$> omap as_str ts) ∪ acc).
Proof.
  intros Hts. revert acc. induction Hts as [|t ts Ht _ IH]; intros acc; simpl.
  - f_equal. set_solver.
  - destruct t; try discriminate. simpl. unfold mbind, result_bind in *.
    rewrite IH. f_equal. set_solver.
Qed.

Lemma add_sutta_valid (acc : gset pykey) s :
  valid_sutta_ref s = true ->
  exists id, field "sutta_id" s = Some (JStr id)
             /\ add_sutta acc s = Ok ({[KStr id]} ∪ acc).
Proof.
  unfold valid_sutta_ref. rewrite andb_true_iff. intros [Hobj Hid].
  unfold add_sutta. rewrite py_getitem_field by assumption.
  destruct (field "sutta_id" s) as [[| | |id| |]|]; try discriminate.
  exists id. split; reflexivity.
Qed.

Lemma for_fold_add_sutta ss (acc : gset pykey) :
  Forall (fun s => valid_sutta_ref s = true) ss ->
  for_fold add_sutta ss acc
  = Ok (list_to_set (KStr <$> omap (fun s => field "sutta_id" s ≫= as_str) ss) ∪ acc).
Proof.
  intros Hss. revert acc. induction Hss as [|s ss Hs _ IH]; intros acc; simpl.
  - f_equal. set_solver.
  - destruct (add_sutta_valid acc s Hs) as (id & Hid & Hadd).
    rewrite Hadd, Hid. simpl. rewrite IH. f_equal. set_solver.
Qed.

Lemma stats_of_valid_record (acc : gset pykey * gset pykey) v :
  valid_record v = true ->
  stats_of_record acc v
  = Ok (list_to_set (KStr <$> omap as_str (entries "topics" v)) ∪ fst acc,
        list_to_set (KStr <$> omap (fun s => field "sutta_id" s ≫= as_str)
                                   (entries "sutta_refs" v)) ∪ snd acc).
Proof.
  unfold valid_record. rewrite !andb_true_iff.
  intros [[[[[[Hobj _] _] Htp] Hsr] _] _].
  apply optional_seq_entries in Htp as [Htp Htps].
  apply optional_seq_entries in Hsr as [Hsr Hsrs].
  unfold stats_of_record. rewrite !py_get_field by assumption.
  unfold mbind, result_bind. rewrite Htp, Hsr.
  rewrite for_fold_add_topic, for_fold_add_sutta by assumption. reflexivity.
Qed.

Lemma for_fold_stats vs (acc : gset pykey * gset pykey) :
  valid_list vs = true ->
  for_fold stats_of_record vs acc
  = Ok (list_to_set (KStr <$> topic_strings vs) ∪ fst acc,
        list_to_set (KStr <$> sutta_ids vs) ∪ snd acc).
Proof.
  unfold valid_list. rewrite forallb_Forall. intros Hvs. revert acc.
  induction Hvs as [|v vs Hv _ IH]; intros [T S]; simpl.
  - f_equal. f_equal; set_solver.
  - rewrite stats_of_valid_record by assumption.
    unfold mbind, result_bind. rewrite IH. simpl.
    unfold topic_strings, sutta_ids. simpl. rewrite !fmap_app, !list_to_set_app_L.
    f_equal. f_equal; set_solver.
Qed.

(** On a valid list the two sets hold exactly the topics and the sutta ids
    of the records. *)
Lemma count_stats_valid vs :
  valid_list vs = true ->
  count_stats (JArr vs)
  = Ok (list_to_set (KStr <$> topic_strings vs), list_to_set (KStr <$> sutta_ids vs)).
Proof.
  intros Hvs. unfold count_stats. simpl. rewrite for_fold_stats by assumption.
  simpl. f_equal. f_equal; set_solver.
Qed.

(** The size of the set is the number of distinct strings. *)
Lemma size_string_set (l : list string) :
  size (list_to_set (KStr <$> l) : gset pykey) = distinct l.
Proof.
  unfold distinct.
  assert (H : (list_to_set (KStr <$> l) : gset pykey)
              = list_to_set (KStr <$> remove_dups l)).
  { apply set_eq. intros k. rewrite !elem_of_list_to_set, !list_elem_of_fmap.
    split; intros (s & -> & Hs); exists s; split; auto;
      now apply elem_of_remove_dups. }
  rewrite H, size_list_to_set, length_fmap; [reflexivity|].
  apply NoDup_fmap_2; [|apply NoDup_remove_dups].
  intros a b [= ->]. reflexivity.
Qed.

(** ** Lexicographic order and [sorted] *)

Lemma str_le_refl a : str_le a a.
Proof.
  unfold str_le, String.leb.
  induction a as [|c a IH]; simpl; [reflexivity|].
  unfold Ascii.compare. now rewrite N.compare_refl.
Qed.

Lemma str_le_trans a b c : str_le a b -> str_le b c -> str_le a c.
Proof.
  unfold str_le, String.leb. revert b c.
  induction a as [|x a IH]; intros [|y b] [|z c]; simpl; try easy.
  unfold Ascii.compare.
  destruct (N.compare_spec (N_of_ascii x) (N_of_ascii y)) as [Hxy|Hxy|Hxy];
    destruct (N.compare_spec (N_of_ascii y) (N_of_ascii z)) as [Hyz|Hyz|Hyz];
    destruct (N.compare_spec (N_of_ascii x) (N_of_ascii z)) as [Hxz|Hxz|Hxz];
    try easy; try lia.
  apply IH.
Qed.

Lemma str_le_total a b : str_le a b \/ str_le b a.
Proof. apply String.leb_total. Qed.

Lemma insert_sorted_perm x l : Permutation (insert_sorted x l) (x :: l).
Proof.
  induction l as [|y l IH]; simpl; [reflexivity|].
  destruct (String.leb x y); [reflexivity|].
  rewrite IH. apply perm_swap.
Qed.

Lemma sort_strings_perm l : Permutation (sort_strings l) l.
Proof.
  induction l as [|x l IH]; simpl; [reflexivity|].
  rewrite insert_sorted_perm. now constructor.
Qed.

Lemma insert_sorted_sorted x l :
  StronglySorted str_le l -> StronglySorted str_le (insert_sorted x l).
Proof.
  induction 1 as [|y l Hl IH Hy]; simpl.
  - repeat constructor.
  - destruct (String.leb x y) eqn:Hxy.
    + constructor; [now constructor|]. constructor; [exact Hxy|].
      eapply Forall_impl; [exact Hy|]. intros z. now apply str_le_trans.
    + constructor; [exact IH|].
      rewrite insert_sorted_perm. constructor; [|exact Hy].
      destruct (str_le_total x y) as [H|H]; [|exact H].
      unfold str_le in H. congruence.
Qed.

(** [sorted] returns its argument in ascending lexicographic order. *)
Lemma sort_strings_sorted l : StronglySorted str_le (sort_strings l).
Proof.
  induction l as [|x l IH]; simpl; [constructor | now apply insert_sorted_sorted].
Qed.

Lemma sorted_head_least l first rest :
  StronglySorted str_le l -> l = first :: rest -> Forall (str_le first) l.
Proof.
  intros Hl ->. inversion Hl; subst. constructor; [apply str_le_refl | assumption].
Qed.

Lemma sorted_last_greatest l d :
  StronglySorted str_le l -> Forall (fun x => str_le x (List.last l d)) l.
Proof.
  induction 1 as [|y l Hl IH Hy]; [constructor|].
  destruct l as [|z l].
  - constructor; [apply str_le_refl | constructor].
  - change (List.last (y :: z :: l) d) with (List.last (z :: l) d).
    constructor; [|exact IH].
    rewrite Forall_forall in Hy, IH.
    assert (Hin : List.last (z :: l) d ∈ z :: l).
    { clear. revert z. induction l as [|a l IHl]; intros z.
      - left.
      - change (List.last (z :: a :: l) d) with (List.last (a :: l) d).
        right. apply IHl. }
    now apply Hy.
Qed.

(** ** The collected dates *)

Lemma compact_record_Ok_object v c : compact_record v = Ok c -> is_object v = true.
Proof.
  unfold compact_record. intros H. split_bind_as H t Ht.
  now apply py_getitem_Ok in Ht.
Qed.

Lemma compact_Ok_objects vs c :
  compact (JArr vs) = Ok c -> Forall (fun v => is_object v = true) vs.
Proof.
  unfold compact. simpl. intros H. apply for_each_Forall2 in H.
  induction H as [|v y vs ys Hv _ IH]; constructor; auto.
  now apply compact_record_Ok_object in Hv.
Qed.

(** The comprehension collects the non-empty date values, in order. *)
Lemma collect_dates_objects vs :
  Forall (fun v => is_object v = true) vs ->
  collect_dates (JArr vs) = Ok (nonempty_dates vs).
Proof.
  unfold collect_dates. simpl.
  induction 1 as [|v vs Hv _ IH]; simpl; [reflexivity|].
  rewrite py_get_field, py_getitem_field by assumption. simpl.
  unfold mbind, result_bind in *. rewrite IH.
  destruct (field "date" v) as [d|]; simpl; [|reflexivity].
  destruct (truthy d); reflexivity.
Qed.

Lemma nonempty_dates_none vs :
  Forall (fun v => has_date v = false) vs -> nonempty_dates vs = [].
Proof.
  unfold nonempty_dates, has_date.
  induction 1 as [|v vs Hv _ IH]; simpl; [reflexivity|].
  destruct (field "date" v) as [d|]; [rewrite Hv|]; exact IH.
Qed.

Lemma py_sorted_strings ds : py_sorted (JStr <$> ds) = Ok (sort_strings ds).
Proof.
  unfold py_sorted.
  assert (H : mapM as_str (JStr <$> ds) = Some ds).
  { induction ds as [|d ds IH]; simpl; [reflexivity|].
    change (list_fmap string json JStr ds) with (JStr <$> ds). now rewrite IH. }
  now rewrite H.
Qed.

(** Without a dated record [earliest] and [latest] stay unbound. *)
Lemma date_range_none vs :
  Forall (fun v => is_object v = true) vs ->
  Forall (fun v => has_date v = false) vs ->
  date_range (JArr vs) = Ok None.
Proof.
  intros Hobj Hnone. unfold date_range.
  rewrite collect_dates_objects, nonempty_dates_none by assumption.
  reflexivity.
Qed.

(** With dates, all of them strings, the first and the last of the sorted
    list are parsed and formatted. *)
Lemma date_range_strings vs ds :
  Forall (fun v => is_object v = true) vs ->
  nonempty_dates vs = JStr <$> ds ->
  date_range (JArr vs)
  = match sort_strings ds with
    | [] => Ok None
    | first :: _ =>
        e ← strptime first;
        l ← strptime (List.last (sort_strings ds) first);
        Ok (Some (strftime e, strftime l))
    end.
Proof.
  intros Hobj Hds. unfold date_range.
  rewrite collect_dates_objects, Hds by assumption. simpl.
  rewrite py_sorted_strings. reflexivity.
Qed.

Lemma strptime_raises_ValueError s e :
  strptime s = Raise e -> exists what, e = ValueError what.
Proof.
  unfold strptime.
  destruct (match_ymd s) as [[[[y m] d] rest]|]; [|intros [= <-]; eauto].
  destruct (negb (rest =? "")%string); [intros [= <-]; eauto|].
  destruct (y <? 1)%nat; [intros [= <-]; eauto|].
  destruct (days_in_month y m <? d)%nat; [intros [= <-]; eauto | discriminate].
Qed.

(** ** Replacement and the tokens it does not touch *)

Lemma append_nil_l (s : string) : "" +:+ s = s.
Proof. reflexivity. Qed.

Lemma append_cons c (a b : string) : String c a +:+ b = String c (a +:+ b).
Proof. reflexivity. Qed.

Lemma append_nil_r (s : string) : s +:+ "" = s.
Proof. induction s as [|c s IH]; [reflexivity | now rewrite append_cons, IH]. Qed.

Lemma append_assoc (a b c : string) : (a +:+ b) +:+ c = a +:+ b +:+ c.
Proof. induction a as [|x a IH]; [reflexivity | now rewrite !append_cons, IH]. Qed.

Lemma prefix_nil_l s : String.prefix "" s = true.
Proof. now destruct s. Qed.

Lemma prefix_cons c p d s :
  String.prefix (String c p) (String d s) = true <-> c = d /\ String.prefix p s = true.
Proof.
  simpl. destruct (ascii_dec c d) as [->|Hne]; [tauto|].
  split; [discriminate | intros [? _]; contradiction].
Qed.



Lemma suffixes_app a r : r ≠ "" -> r ∈ suffixes (a +:+ r).
Proof.
  intros Hr. induction a as [|c a IH].
  - rewrite append_nil_l. destruct r; [contradiction | left].
  - rewrite append_cons. now right.
Qed.

Lemma replace_from_0 old new c rest :
  replace_from old new 0 (String c rest)
  = if String.prefix old (String c rest)
    then new +:+ replace_from old new (String.length old - 1) rest
    else String c (replace_from old new 0 rest).
Proof. reflexivity. Qed.







(** ** What a replacement does *)

Lemma prefix_split p s : String.prefix p s = true -> exists b, s = p +:+ b.
Proof.
  revert s. induction p as [|c p IH]; intros s H.
  - now exists s.
  - destruct s as [|d s]; [discriminate|].
    apply prefix_cons in H as [-> H]. destruct (IH s H) as [b ->]. now exists b.
Qed.

Lemma prefix_append p b : String.prefix p (p +:+ b) = true.
Proof.
  induction p as [|c p IH]; [apply prefix_nil_l|].
  rewrite append_cons. now apply prefix_cons.
Qed.

Lemma append_length (a b : string) :
  String.length (a +:+ b) = String.length a + String.length b.
Proof. induction a as [|c a IH]; [reflexivity|]. rewrite append_cons. simpl. now rewrite IH. Qed.

(** A prefix of [u +:+ v] no longer than [u] is a prefix of [u]. *)
Lemma prefix_shorter p u v :
  String.prefix p (u +:+ v) = true -> String.length p <= String.length u ->
  String.prefix p u = true.
Proof.
  revert u. induction p as [|c p IH]; intros u H Hlen; [apply prefix_nil_l|].
  destruct u as [|d u]; [simpl in Hlen; lia|].
  rewrite append_cons in H. apply prefix_cons in H as [-> H].
  apply prefix_cons. split; [reflexivity|]. apply IH; [exact H | simpl in Hlen; lia].
Qed.

(** Where the token does not occur nothing is replaced. *)
Lemma replace_absent old new s :
  old ≠ "" -> ~ occurs_in old s -> replace old new s = s.
Proof.
  intros Hold. destruct old as [|o old]; [contradiction|]. unfold replace.
  induction s as [|c s IH]; intros Hno; [reflexivity|].
  rewrite replace_from_0.
  destruct (String.prefix (String o old) (String c s)) eqn:Hp.
  - exfalso. apply Hno. apply prefix_split in Hp as [b ->]. now exists "", b.
  - rewrite IH; [reflexivity|]. intros (a & b & ->). apply Hno.
    exists (String c a), b. now rewrite append_cons.
Qed.

(** Dropping the rest of a match. *)
Lemma replace_from_skip old new u b :
  replace_from old new (String.length u) (u +:+ b) = replace_from old new 0 b.
Proof.
  induction u as [|c u IH]; [now destruct b|].
  rewrite append_cons. simpl. exact IH.
Qed.

(** The first occurrence of the token is replaced, and the scan goes on
    behind it. *)
Lemma replace_first old new a b :
  old ≠ "" ->
  (forall x y, a +:+ old = x +:+ old +:+ y -> y = "") ->
  replace old new (a +:+ old +:+ b) = a +:+ new +:+ replace old new b.
Proof.
  intros Hold. destruct old as [|o old]; [contradiction|]. unfold replace.
  induction a as [|c a IH]; intros Hlast.
  - rewrite !append_nil_l, append_cons, replace_from_0.
    rewrite <- append_cons, prefix_append.
    replace (String.length (String o old) - 1) with (String.length old)
      by (simpl; lia).
    now rewrite replace_from_skip.
  - rewrite !(append_cons c), replace_from_0.
    destruct (String.prefix (String o old) (String c (a +:+ String o old +:+ b))) eqn:Hp.
    + exfalso. rewrite <- (append_cons c), <- append_assoc in Hp.
      apply prefix_shorter in Hp.
      2:{ rewrite append_length. simpl. lia. }
      apply prefix_split in Hp as [y Hy].
      assert (y = "") as ->.
      { apply (Hlast "" y). now rewrite append_nil_l. }
      rewrite append_nil_r in Hy. apply (f_equal String.length) in Hy.
      rewrite append_length in Hy. simpl in Hy. lia.
    + rewrite IH; [reflexivity|]. intros x y Hxy.
      apply (Hlast (String c x) y). now rewrite !(append_cons c), Hxy.
Qed.

Lemma occurs_inb_false t s : t ≠ "" -> occurs_inb t s = false -> ~ occurs_in t s.
Proof.
  intros Ht Hb (a & b & ->). unfold occurs_inb in Hb.
  assert (Hin : t +:+ b ∈ suffixes (a +:+ t +:+ b)).
  { apply suffixes_app. destruct t; [contradiction | discriminate]. }
  assert (existsb (String.prefix t) (suffixes (a +:+ t +:+ b)) = true); [|congruence].
  apply existsb_Exists, Exists_exists. exists (t +:+ b). split; [exact Hin|].
  apply prefix_append.
Qed.

Lemma occurs_last_only_true t pre :
  t ≠ "" -> occurs_last_only t (pre +:+ t) = true ->
  forall x y, pre +:+ t = x +:+ t +:+ y -> y = "".
Proof.
  intros Ht Hb x y Hxy. unfold occurs_last_only in Hb.
  rewrite forallb_Forall, Forall_forall in Hb.
  assert (Hin : t +:+ y ∈ suffixes (pre +:+ t)).
  { rewrite Hxy. apply suffixes_app. destruct t; [contradiction | discriminate]. }
  specialize (Hb _ Hin). rewrite prefix_append in Hb. simpl in Hb.
  apply String.eqb_eq in Hb. apply (f_equal String.length) in Hb.
  rewrite append_length in Hb. destruct y; [reflexivity | simpl in Hb; lia].
Qed.

Lemma prefix_app_l p u v :
  String.prefix p u = true -> String.prefix p (u +:+ v) = true.
Proof.
  intros H. apply prefix_split in H as [b ->].
  rewrite append_assoc. apply prefix_append.
Qed.

Lemma occurs_in_empty old : old ≠ "" -> ~ occurs_in old "".
Proof.
  intros Hold (a & b & H). apply (f_equal String.length) in H.
  rewrite !append_length in H. destruct old; [contradiction|]. simpl in H. lia.
Qed.

(** A token either does not occur or has a first occurrence. *)
Lemma first_occurrence old s :
  old ≠ "" ->
  ~ occurs_in old s
  \/ exists a b, s = a +:+ old +:+ b
                 /\ (forall x y, a +:+ old = x +:+ old +:+ y -> y = "").
Proof.
  intros Hold. induction s as [|c s IH]; [left; now apply occurs_in_empty|].
  destruct (String.prefix old (String c s)) eqn:Hp.
  - right. apply prefix_split in Hp as [b Hb]. exists "", b.
    split; [now rewrite append_nil_l|].
    intros x y Hxy. rewrite append_nil_l in Hxy.
    apply (f_equal String.length) in Hxy. rewrite !append_length in Hxy.
    destruct y; [reflexivity | simpl in Hxy; lia].
  - destruct IH as [Hno|(a & b & -> & Hfirst)].
    + left. intros (a & b & Hab). destruct a as [|c' a].
      * rewrite append_nil_l in Hab. rewrite Hab, prefix_append in Hp.
        discriminate Hp.
      * rewrite append_cons in Hab. injection Hab as _ ->.
        apply Hno. now exists a, b.
    + right. exists (String c a), b. split; [now rewrite append_cons|].
      intros x y Hxy. destruct x as [|c' x].
      * exfalso. rewrite append_nil_l in Hxy.
        assert (String.prefix old (String c a +:+ old) = true) as Hpre
          by (rewrite Hxy; apply prefix_append).
        apply (prefix_app_l _ _ b) in Hpre.
        rewrite append_assoc, append_cons in Hpre. congruence.
      * rewrite !append_cons in Hxy. injection Hxy as _ Hxy.
        now apply (Hfirst x y).
Qed.

(** [replace] does what [replaces] says, and nothing else does. *)
Lemma replace_replaces old new s :
  old ≠ "" -> replaces old new s (replace old new s).
Proof.
  intros Hold.
  remember (String.length s) as n eqn:Hn. revert s Hn.
  induction (lt_wf n) as [n _ IH]. intros s ->.
  destruct (first_occurrence old s Hold) as [Hno|(a & b & -> & Hfirst)].
  - rewrite (replace_absent old new s Hold Hno). now constructor.
  - rewrite (replace_first old new a b Hold Hfirst).
    constructor; [exact Hfirst|].
    apply (IH (String.length b)); [|reflexivity].
    rewrite !append_length. destruct old; [contradiction | simpl; lia].
Qed.

Lemma replaces_replace old new s s' :
  old ≠ "" -> replaces old new s s' -> s' = replace old new s.
Proof.
  intros Hold. induction 1 as [s Hno|a b b' Hfirst _ ->].
  - now rewrite replace_absent.
  - now rewrite replace_first.
Qed.

(** ** Numerals *)

Lemma pretty_N_char_digit d :
  (d < 10)%N -> pretty_N_char d = digit_char (N.to_nat d).
Proof.
  intros Hd. destruct d as [|p]; [reflexivity|].
  do 4 (try destruct p as [p|p|]); try reflexivity; lia.
Qed.

Lemma pretty_N_go_app x s : pretty_N_go x s = pretty_N_go x "" +:+ s.
Proof.
  revert s. induction (N.lt_wf_0 x) as [x _ IH]; intros s.
  destruct (decide (x = 0)%N) as [->|Hx]; [now rewrite !pretty_N_go_0|].
  rewrite !(pretty_N_go_step x) by lia.
  assert (Hlt : (x `div` 10 < x)%N) by (apply N.div_lt; lia).
  rewrite (IH _ Hlt (String _ s)), (IH _ Hlt (String _ "")).
  now rewrite append_assoc.
Qed.

Lemma pretty_N_go_numeral x :
  (0 < x)%N -> numeral (N.to_nat x) (pretty_N_go x "").
Proof.
  induction (N.lt_wf_0 x) as [x _ IH]; intros Hx.
  rewrite pretty_N_go_step, pretty_N_go_app by exact Hx.
  pose proof (N.div_mod' x 10) as Hdiv.
  pose proof (N.mod_lt x 10) as Hmod.
  rewrite pretty_N_char_digit by lia.
  destruct (decide (x `div` 10 = 0)%N) as [H0|H0].
  - rewrite H0, pretty_N_go_0, append_nil_l.
    replace (N.to_nat x) with (N.to_nat (x `mod` 10)) by lia.
    constructor. lia.
  - replace (N.to_nat x)
      with (10 * N.to_nat (x `div` 10) + N.to_nat (x `mod` 10)) by lia.
    constructor; [lia | lia |].
    apply IH; [apply N.div_lt; lia | lia].
Qed.

(** [str] of a number is its decimal numeral. *)
Lemma str_numeral n : numeral n (str n).
Proof.
  unfold str, pretty, pretty_nat, pretty, pretty_N.
  case_decide as Hn.
  - assert (n = 0) as -> by lia. apply (numeral_digit 0). lia.
  - rewrite <- (Nat2N.id n) at 1. apply pretty_N_go_numeral. lia.
Qed.

(** A number has one numeral. *)
Lemma numeral_unique n s1 s2 : numeral n s1 -> numeral n s2 -> s1 = s2.
Proof.
  intros H1. revert s2. induction H1 as [d Hd|n d s Hn Hd _ IH]; intros s2 H2.
  - remember d as m eqn:Hm in H2.
    destruct H2 as [d' Hd'|n' d' s' Hn' Hd' Hs']; [now subst | lia].
  - remember (10 * n + d) as m eqn:Hm in H2.
    destruct H2 as [d' Hd'|n' d' s' Hn' Hd' Hs']; [lia|].
    assert (n' = n) as -> by lia. assert (d' = d) as -> by lia.
    f_equal. now apply IH.
Qed.

(** A numeral is one digit, or the numeral of the tenth part and one more
    digit. *)
Lemma numeral_inv n s :
  numeral n s ->
  (n < 10 /\ String.length s = 1)
  \/ exists n' s', numeral n' s' /\ 0 < n' /\ 10 * n' <= n < 10 * n' + 10
                   /\ String.length s = S (String.length s').
Proof.
  destruct 1 as [d Hd|n d s Hn Hd Hs]; [left; now split|].
  right. exists n, s. split; [exact Hs|]. split; [exact Hn|]. split; [lia|].
  rewrite append_length. simpl. lia.
Qed.

(** From the year 1000 to the year 9999 the numeral has four digits. *)
Lemma numeral_four_digits n s :
  numeral n s -> 1000 <= n < 10 * 1000 -> String.length s = 4.
Proof.
  intros H Hn.
  apply numeral_inv in H as [[? _]|(n1 & s1 & H & ? & ? & ->)]; [lia|].
  apply numeral_inv in H as [[? _]|(n2 & s2 & H & ? & ? & ->)]; [lia|].
  apply numeral_inv in H as [[? _]|(n3 & s3 & H & ? & ? & ->)]; [lia|].
  apply numeral_inv in H as [[_ ->]|(n4 & s4 & H & ? & ? & ->)]; [reflexivity | lia].
Qed.

(** What step 5 does to the template. *)
Lemma fill_counts_filled tpl compact_json videos topics suttas :
  counts_filled tpl compact_json videos topics suttas
                (fill_counts tpl compact_json videos topics suttas).
Proof.
  unfold counts_filled, fill_counts.
  exists (str videos), (str topics), (str suttas).
  do 3 eexists.
  split; [apply str_numeral|]. split; [apply str_numeral|].
  split; [apply str_numeral|].
  repeat split; apply replace_replaces; discriminate.
Qed.

Lemma counts_filled_unique tpl compact_json videos topics suttas page :
  counts_filled tpl compact_json videos topics suttas page ->
  page = fill_counts tpl compact_json videos topics suttas.
Proof.
  intros (nv & nt & ns & h1 & h2 & h3 & Hnv & Hnt & Hns & H1 & H2 & H3 & H4).
  rewrite (numeral_unique _ _ _ Hnv (str_numeral videos)) in H2.
  rewrite (numeral_unique _ _ _ Hnt (str_numeral topics)) in H3.
  rewrite (numeral_unique _ _ _ Hns (str_numeral suttas)) in H4.
  apply replaces_replace in H1, H2, H3, H4; try discriminate.
  unfold fill_counts. congruence.
Qed.

Lemma range_filled_unique range h page :
  range_filled range h page -> page = fill_date_range h range.
Proof.
  destruct range as [[earliest latest]|]; simpl; [|auto].
  intros H. apply replaces_replace in H; [exact H | discriminate].
Qed.

Lemma fill_date_range_filled h range :
  range_filled range h (fill_date_range h range).
Proof.
  destruct range as [[earliest latest]|]; [|reflexivity].
  apply replace_replaces. discriminate.
Qed.

Lemma strftime_rendered d : rendered d (strftime d).
Proof.
  exists (year_digits (year d)). split; [|reflexivity].
  apply (str_numeral (year d)).
Qed.

(** The template has no lone surrogate. *)
Lemma template_encodes w tpl :
  template_file w = Some tpl -> has_surrogate tpl = false.
Proof.
  destruct w as [d t o cs]. unfold template_file. simpl.
  destruct t as [[b ok]|]; [|discriminate]. simpl. now intros [= <-].
Qed.

(** ** The run is determined by its input files *)

Lemma apply_effect_nothing w : apply_effect [] None w = w.
Proof. destruct w. unfold apply_effect. simpl. now rewrite app_nil_r. Qed.

Lemma apply_effect_twice l1 w1 l2 w2 w :
  apply_effect l2 w2 (apply_effect l1 w1 w)
  = apply_effect (l1 ++ l2) (match w2 with Some h => Some h | None => w1 end) w.
Proof.
  unfold apply_effect. simpl. rewrite app_assoc. f_equal. now destruct w2, w1.
Qed.

Lemma determined_ret {A} (a : A) : determined (mret a).
Proof.
  intros d t. exists (inl a), [], None. intros w _ _.
  now rewrite apply_effect_nothing.
Qed.

Lemma determined_bind {A B} (m : script A) (k : A -> script B) :
  determined m -> (forall a, determined (k a)) -> determined (m ≫= k).
Proof.
  intros Hm Hk d t. destruct (Hm d t) as (r & l1 & w1 & Hr).
  destruct r as [a|e].
  - destruct (Hk a d t) as (r2 & l2 & w2 & Hr2).
    exists r2, (l1 ++ l2), (match w2 with Some h => Some h | None => w1 end).
    intros w Hd Ht. unfold mbind, script_bind. rewrite (Hr w Hd Ht).
    rewrite (Hr2 (apply_effect l1 w1 w)) by assumption.
    now rewrite apply_effect_twice.
  - exists (inr e), l1, w1. intros w Hd Ht.
    unfold mbind, script_bind. now rewrite (Hr w Hd Ht).
Qed.

Lemma determined_print line : determined (print line).
Proof. intros d t. exists (inl tt), [line], None. reflexivity. Qed.

Lemma determined_sys_exit {A} code : determined (@sys_exit A code).
Proof.
  intros d t. exists (inr (SysExit code)), [], None. intros w _ _.
  now rewrite apply_effect_nothing.
Qed.

Lemma determined_eval {A} (r : result A) : determined (eval r).
Proof.
  intros d t. destruct r as [a|e].
  - exists (inl a), [], None. intros w _ _. now rewrite apply_effect_nothing.
  - exists (inr (Uncaught e)), [], None. intros w _ _.
    now rewrite apply_effect_nothing.
Qed.

Lemma determined_open_data : determined open_data.
Proof.
  intros d t. exists (inl d), [], None. intros w <- _.
  now rewrite apply_effect_nothing.
Qed.

Lemma determined_open_template : determined open_template.
Proof.
  intros d t. exists (inl t), [], None. intros w _ <-.
  now rewrite apply_effect_nothing.
Qed.

Lemma determined_write_output html : determined (write_output html).
Proof.
  intros d t. unfold write_output, apply_effect.
  destruct (has_surrogate html).
  - exists (inr (Uncaught UnicodeEncodeError)), [], (Some "").
    intros w _ _. now rewrite app_nil_r.
  - exists (inl tt), [], (Some html). intros w _ _. now rewrite app_nil_r.
Qed.

Create HintDb determined.
#[local] Hint Resolve determined_ret determined_print determined_sys_exit
  determined_eval determined_open_data determined_open_template
  determined_write_output : determined.

Ltac determined_step :=
  match goal with
  | |- determined (_ ≫= _) => apply determined_bind; [|intros ?]
  | |- determined (match ?x with _ => _ end) => destruct x
  | |- determined _ => solve [auto with determined]
  end.

Lemma determined_load_data : determined load_data.
Proof. unfold load_data. repeat determined_step. Qed.

Lemma determined_load_template : determined load_template.
Proof. unfold load_template. repeat determined_step. Qed.

#[local] Hint Resolve determined_load_data determined_load_template : determined.

Lemma determined_build : determined build.
Proof. unfold build. repeat determined_step. Qed.

(** The run of any world is the run of its two input files, applied to that
    world. *)
Lemma run_effect d t :
  exists e lines written,
    forall w, data_file w = d -> template_file w = t ->
      run w = (e, apply_effect lines written w).
Proof.
  destruct (determined_build d t) as (r & lines & written & H).
  exists (match r with inl _ => Finished | inr e => e end), lines, written.
  intros w Hd Ht. unfold run. rewrite (H w Hd Ht). now destruct r.
Qed.

(** * The claims *)

(** ** C4: a missing data file *)

(** C4. If the data file does not exist, the run prints the banner and the
    two lines of guidance, ends by [sys.exit(1)], and leaves index.html as it
    was: neither written nor modified. *)
Theorem missing_data_file w :
  data_file w = Absent ->
  fst (run w) = SysExit 1
  /\ exit_code (fst (run w)) = 1%Z
  /\ console (snd (run w)) = console w ++ banner ++ not_found_guidance
  /\ output_file (snd (run w)) = output_file w.
Proof.
  intros H. rewrite (run_absent w H). repeat split.
Qed.

Lemma missing_data_file_witness :
  fst (run (Sample.world_of Absent)) = SysExit 1
  /\ exit_code (fst (run (Sample.world_of Absent))) = 1%Z
  /\ console (snd (run (Sample.world_of Absent)))
     = console (Sample.world_of Absent) ++ banner ++ not_found_guidance
  /\ output_file (snd (run (Sample.world_of Absent)))
     = output_file (Sample.world_of Absent).
Proof. apply (missing_data_file (Sample.world_of Absent)). reflexivity. Defined.

(** ** C5: the compact list *)

(** C5. For every valid input list compaction succeeds, the compact list is
    as long as the input list, and the record at each index is the compact
    form of the source record at that index: the required fields under their
    short names, the optional ones defaulted to the empty string or the
    empty sequence. *)
Theorem compact_preserves_records vs :
  valid_list vs = true ->
  exists c,
    compact (JArr vs) = Ok c
    /\ length c = length vs
    /\ forall i v, vs !! i = Some v ->
         exists cr, c !! i = Some cr /\ abbreviates v cr.
Proof.
  intros Hvs. destruct (valid_list_compacts vs Hvs) as [c Hc].
  exists c. split; [exact Hc|].
  unfold compact in Hc. simpl in Hc. apply for_each_Forall2 in Hc.
  split; [symmetry; exact (Forall2_length _ _ _ Hc)|].
  intros i v Hi.
  destruct (Forall2_lookup_l _ _ _ _ _ Hc Hi) as (cr & Hcr & Hv).
  exists cr. split; [exact Hcr|]. now apply compact_record_abbreviates.
Qed.

Lemma compact_preserves_records_witness :
  exists c,
    compact (JArr [Sample.video_a; Sample.video_b]) = Ok c
    /\ length c = length [Sample.video_a; Sample.video_b]
    /\ forall i v, [Sample.video_a; Sample.video_b] !! i = Some v ->
         exists cr, c !! i = Some cr /\ abbreviates v cr.
Proof.
  apply (compact_preserves_records [Sample.video_a; Sample.video_b]).
  reflexivity.
Defined.

(** ** C10: null url, null label *)

(** C10. A sutta reference with a [sutta_id] is compacted; a [url] that is
    present but null stays null in the compact entry, and is written as the
    JSON [null]; a [label] that is present but null becomes the empty
    string.  The label of an other reference is not coalesced: null stays
    null. *)
Theorem sutta_ref_null_url_kept s id :
  is_object s = true -> field "sutta_id" s = Some id ->
  exists c,
    compact_sutta_ref s = Ok c
    /\ field "id" c = Some id
    /\ (field "url" s = Some JNull ->
        field "url" c = Some JNull /\ json_dumps JNull = "null")
    /\ (field "label" s = Some JNull -> field "l" c = Some (JStr ""))
    /\ (forall r, is_object r = true -> field "label" r = Some JNull ->
        exists c', compact_other_ref r = Ok c' /\ field "label" c' = Some JNull).
Proof.
  intros Hobj Hid. unfold compact_sutta_ref.
  rewrite py_getitem_field, !py_get_field by assumption. rewrite Hid.
  eexists. split; [reflexivity|]. split; [reflexivity|]. repeat split.
  - cbn. now rewrite H.
  - intros Hl. cbn. now rewrite Hl.
  - intros r Hr Hl. unfold compact_other_ref.
    rewrite !py_get_field by assumption. rewrite Hl.
    eexists. split; reflexivity.
Qed.

Lemma sutta_ref_null_url_kept_witness :
  exists c,
    compact_sutta_ref
      (JObj [("sutta_id", JStr "MN 9"); ("url", JNull); ("label", JNull)]) = Ok c
    /\ field "id" c = Some (JStr "MN 9")
    /\ (field "url" (JObj [("sutta_id", JStr "MN 9"); ("url", JNull); ("label", JNull)])
        = Some JNull ->
        field "url" c = Some JNull /\ json_dumps JNull = "null")
    /\ (field "label" (JObj [("sutta_id", JStr "MN 9"); ("url", JNull); ("label", JNull)])
        = Some JNull -> field "l" c = Some (JStr ""))
    /\ (forall r, is_object r = true -> field "label" r = Some JNull ->
        exists c', compact_other_ref r = Ok c' /\ field "label" c' = Some JNull).
Proof.
  apply (sutta_ref_null_url_kept
           (JObj [("sutta_id", JStr "MN 9"); ("url", JNull); ("label", JNull)])
           (JStr "MN 9")); reflexivity.
Defined.

(** ** C1: a record that lacks a required field *)

Lemma missing_fields_nil_complete v :
  missing_fields v = [] -> lacks_required v = false.
Proof.
  unfold missing_fields, lacks_required. intros H.
  apply app_eq_nil in H as [Ht H]. apply app_eq_nil in H as [Hu H].
  apply app_eq_nil in H as [Hsr Hrv].
  assert (Hhas : forall k x, missing k x = [] -> has_field k x = true).
  { intros k x. unfold missing. now destruct (has_field k x). }
  rewrite (Hhas _ _ Ht), (Hhas _ _ Hu). simpl.
  apply orb_false_iff. split.
  - destruct (existsb _ (entries "sutta_refs" v)) eqn:E; [|reflexivity].
    apply existsb_Exists in E. apply Exists_exists in E as (s & Hin & Hs).
    induction (entries "sutta_refs" v) as [|x xs IH]; [inversion Hin|].
    simpl in Hsr. apply app_eq_nil in Hsr as [Hx Hxs].
    inversion Hin; subst; [|now apply IH].
    now rewrite (Hhas _ _ Hx) in Hs.
  - destruct (existsb _ (entries "related_videos" v)) eqn:E; [|reflexivity].
    apply existsb_Exists in E. apply Exists_exists in E as (r & Hin & Hr).
    induction (entries "related_videos" v) as [|x xs IH]; [inversion Hin|].
    simpl in Hrv. apply app_eq_nil in Hrv as [Hx Hxs].
    inversion Hin; subst; [|now apply IH].
    apply app_eq_nil in Hx as [H1 H2].
    now rewrite (Hhas _ _ H1), (Hhas _ _ H2) in Hr.
Qed.

(** C1 as written asks the error to name the index of the offending
    record.  The [KeyError] of a missing key holds the key alone: the same
    error is raised for an untitled record at index 0 and at index 1, so no
    index can be read off it. *)
Lemma missing_field_error_has_no_index :
  ~ exists index_of : exn -> nat,
      forall vs i v,
        vs !! i = Some v -> lacks_required v = true ->
        (forall j u, j < i -> vs !! j = Some u -> valid_record u = true) ->
        exists e, compact (JArr vs) = Raise e /\ index_of e = i.
Proof.
  intros [index_of H].
  destruct (H [Sample.video_untitled] 0 Sample.video_untitled) as (e0 & He0 & Hi0);
    [reflexivity | reflexivity | intros j u Hj; lia |].
  destruct (H [Sample.video_b; Sample.video_untitled] 1 Sample.video_untitled)
    as (e1 & He1 & Hi1); [reflexivity | reflexivity | |].
  { intros [|j] u Hj; [intros [= <-]; reflexivity | lia]. }
  vm_compute in He0. vm_compute in He1.
  injection He0 as <-. injection He1 as <-. congruence.
Qed.

(** C1, amended.  If a record of the input list lacks a required field, the
    run ends in compaction on an uncaught exception and index.html is left
    as it was.  Where the records before the offending one are valid and
    that record has the right shape, the exception is the [KeyError] of the
    first required field the record misses; it names the field, not the
    record. *)
Theorem missing_field_aborts w vs :
  data_file w = Parsed (JArr vs) ->
  Exists (fun v => lacks_required v = true) vs ->
  (exists e, compact (JArr vs) = Raise e /\ fst (run w) = Uncaught e)
  /\ output_file (snd (run w)) = output_file w
  /\ (forall pre v post,
        vs = pre ++ v :: post -> valid_list pre = true ->
        shaped v = true -> lacks_required v = true ->
        exists k, head (missing_fields v) = Some k
                  /\ fst (run w) = Uncaught (KeyError k)).
Proof.
  intros Hw Hlack. destruct (lacking_list_raises vs Hlack) as [e He].
  rewrite (run_compact_raises w vs e Hw He). simpl.
  split; [eauto|]. split; [reflexivity|].
  intros pre v post -> Hpre Hshape Hv.
  destruct (missing_fields v) as [|k ks] eqn:Hm.
  - apply missing_fields_nil_complete in Hm. congruence.
  - exists k. split; [reflexivity|]. f_equal.
    apply reads_record in Hshape. rewrite Hm in Hshape. simpl in Hshape.
    unfold compact in He. simpl in He.
    rewrite (for_each_first_raise compact_record pre v post (KeyError k)) in He.
    + now injection He.
    + unfold valid_list in Hpre. apply forallb_Forall in Hpre.
      eapply Forall_impl; [exact Hpre|]. apply valid_record_compacts.
    + exact Hshape.
Qed.

Lemma missing_field_aborts_witness :
  let w := Sample.world_of (Parsed (JArr [Sample.video_b; Sample.video_untitled])) in
  (exists e, compact (JArr [Sample.video_b; Sample.video_untitled]) = Raise e
             /\ fst (run w) = Uncaught e)
  /\ output_file (snd (run w)) = output_file w
  /\ (forall pre v post,
        [Sample.video_b; Sample.video_untitled] = pre ++ v :: post ->
        valid_list pre = true -> shaped v = true -> lacks_required v = true ->
        exists k, head (missing_fields v) = Some k
                  /\ fst (run w) = Uncaught (KeyError k)).
Proof.
  apply (missing_field_aborts
           (Sample.world_of (Parsed (JArr [Sample.video_b; Sample.video_untitled])))
           [Sample.video_b; Sample.video_untitled]).
  - reflexivity.
  - right. left. reflexivity.
Defined.

(** ** C2 and C3: no record has a date *)





(** ** C6: the topic count *)

(** C6. For every valid input list the set of topics built in step 3 has as
    many elements as there are distinct topic strings in the [topics] of all
    records, a string counted once however often and wherever it occurs; and
    the decimal numeral of that number is what step 5 puts for every
    PLACEHOLDER_TOPIC_COUNT in the text left by the two replacements before
    it, on the way to the page that a run writes (where the page can be
    encoded). *)
Theorem topic_count_distinct w vs tpl range :
  data_file w = Parsed (JArr vs) -> valid_list vs = true ->
  template_file w = Some tpl -> date_range (JArr vs) = Ok range ->
  fst (run w) ≠ Uncaught UnicodeEncodeError ->
  exists c topics suttas,
    compact (JArr vs) = Ok c
    /\ count_stats (JArr vs) = Ok (topics, suttas)
    /\ size topics = distinct (topic_strings vs)
    /\ size suttas = distinct (sutta_ids vs)
    /\ exists nv nt ns h1 h2 h3 h4 page,
         numeral (length vs) nv
         /\ numeral (distinct (topic_strings vs)) nt
         /\ numeral (distinct (sutta_ids vs)) ns
         /\ replaces "PLACEHOLDER_DATA" (json_dumps (JArr c)) tpl h1
         /\ replaces "PLACEHOLDER_VIDEO_COUNT" nv h1 h2
         /\ replaces "PLACEHOLDER_TOPIC_COUNT" nt h2 h3
         /\ replaces "PLACEHOLDER_SUTTA_COUNT" ns h3 h4
         /\ range_filled range h4 page
         /\ output_file (snd (run w)) = Some page.
Proof.
  intros Hw Hvs Ht Hd Henc.
  destruct (valid_list_compacts vs Hvs) as [c Hc].
  pose proof (count_stats_valid vs Hvs) as Hs.
  exists c, (list_to_set (KStr <$> topic_strings vs)),
         (list_to_set (KStr <$> sutta_ids vs)).
  split; [exact Hc|]. split; [exact Hs|].
  split; [apply size_string_set|]. split; [apply size_string_set|].
  destruct (run_written w vs c _ tpl range Hw Hc Hs Ht Hd Henc) as [_ Hrun].
  simpl in Hrun. rewrite !size_string_set in Hrun.
  destruct (fill_counts_filled tpl (json_dumps (JArr c)) (length vs)
              (distinct (topic_strings vs)) (distinct (sutta_ids vs)))
    as (nv & nt & ns & h1 & h2 & h3 & Hnv & Hnt & Hns & H1 & H2 & H3 & H4).
  exists nv, nt, ns, h1, h2, h3.
  eexists. eexists.
  repeat (split; [eassumption|]).
  split; [apply fill_date_range_filled|].
  rewrite Hrun. now destruct range as [[e l]|].
Qed.

Lemma topic_count_distinct_witness :
  let vs := [Sample.video_a; Sample.video_b; Sample.video_c] in
  let w := Sample.world_of (Parsed (JArr vs)) in
  exists c topics suttas,
    compact (JArr vs) = Ok c
    /\ count_stats (JArr vs) = Ok (topics, suttas)
    /\ size topics = distinct (topic_strings vs)
    /\ size suttas = distinct (sutta_ids vs)
    /\ exists nv nt ns h1 h2 h3 h4 page,
         numeral (length vs) nv
         /\ numeral (distinct (topic_strings vs)) nt
         /\ numeral (distinct (sutta_ids vs)) ns
         /\ replaces "PLACEHOLDER_DATA" (json_dumps (JArr c)) Sample.template h1
         /\ replaces "PLACEHOLDER_VIDEO_COUNT" nv h1 h2
         /\ replaces "PLACEHOLDER_TOPIC_COUNT" nt h2 h3
         /\ replaces "PLACEHOLDER_SUTTA_COUNT" ns h3 h4
         /\ range_filled (Some ("November 2019", "March 2021")) h4 page
         /\ output_file (snd (run w)) = Some page.
Proof.
  apply (topic_count_distinct
           (Sample.world_of
              (Parsed (JArr [Sample.video_a; Sample.video_b; Sample.video_c])))
           [Sample.video_a; Sample.video_b; Sample.video_c]
           Sample.template (Some ("November 2019", "March 2021")));
    try reflexivity.
  vm_compute. discriminate.
Defined.

Example sutta_ref_serialized :
  let q s := String dquote s +:+ String dquote "" in
  (c ← compact_sutta_ref
         (JObj [("sutta_id", JStr "MN 9"); ("url", JNull); ("label", JNull)]);
   Ok (json_dumps c))
  = Ok ("{" +:+ q "id" +:+ ":" +:+ q "MN 9" +:+ "," +:+ q "url" +:+ ":null,"
        +:+ q "l" +:+ ":" +:+ q "" +:+ "}").
Proof. reflexivity. Qed.

Example three_distinct_topics :
  topic_strings [Sample.video_a; Sample.video_b; Sample.video_c]
  = ["view"; "path"; "view"; "path"; "karma"]
  /\ distinct (topic_strings [Sample.video_a; Sample.video_b; Sample.video_c]) = 3.
Proof. split; reflexivity. Qed.

(** ** C7: the date range *)

(** C7. The comprehension collects the non-empty date values; where they are
    strings, [sorted] puts them in ascending lexicographic order (a
    permutation of them, each entry below the next ones, so the first is the
    least and the last the greatest), and the first and the last are parsed
    and rendered as month name and year: the English name of the month, a
    space and the decimal numeral of the year, which has four digits from
    the year 1000 on.  For the dates 2021-03-05,
    2019-11-02, 2020-01-01 the sorted list starts with 2019-11-02 and ends
    with 2021-03-05, rendered November 2019 and March 2021. *)
Theorem date_range_first_last vs ds :
  Forall (fun v => is_object v = true) vs ->
  nonempty_dates vs = JStr <$> ds ->
  collect_dates (JArr vs) = Ok (JStr <$> ds)
  /\ Permutation (sort_strings ds) ds
  /\ StronglySorted str_le (sort_strings ds)
  /\ (forall first rest, sort_strings ds = first :: rest ->
        Forall (str_le first) ds
        /\ Forall (fun d => str_le d (List.last (first :: rest) first)) ds
        /\ date_range (JArr vs)
           = (e ← strptime first;
              l ← strptime (List.last (first :: rest) first);
              Ok (Some (strftime e, strftime l))))
  /\ (forall d, rendered d (strftime d))
  /\ (forall d y, numeral (year d) y -> 1000 <= year d < 10 * 1000 ->
        String.length y = 4)
  /\ month_name <$> seq 1 12
     = ["January"; "February"; "March"; "April"; "May"; "June"; "July";
        "August"; "September"; "October"; "November"; "December"]
  /\ sort_strings ["2021-03-05"; "2019-11-02"; "2020-01-01"]
     = ["2019-11-02"; "2020-01-01"; "2021-03-05"]
  /\ date_range (JArr [Sample.video_a; Sample.video_b; Sample.video_c])
     = Ok (Some ("November 2019", "March 2021")).
Proof.
  intros Hobj Hds.
  split; [rewrite <- Hds; now apply collect_dates_objects|].
  split; [apply sort_strings_perm|].
  split; [apply sort_strings_sorted|].
  split; [|split; [|split; [|split; [|split]]]; try reflexivity].
  2:{ apply strftime_rendered. }
  2:{ intros d y. apply numeral_four_digits. }
  intros first rest Hsort.
  pose proof (sort_strings_sorted ds) as Hsorted.
  pose proof (sort_strings_perm ds) as Hperm.
  split; [|split].
  - rewrite <- Hperm. now apply (sorted_head_least _ first rest).
  - rewrite <- Hperm at 1. rewrite <- Hsort. now apply sorted_last_greatest.
  - rewrite (date_range_strings vs ds Hobj Hds), Hsort. reflexivity.
Qed.

Lemma date_range_first_last_witness :
  let vs := [Sample.video_a; Sample.video_b; Sample.video_c] in
  let ds := ["2021-03-05"; "2019-11-02"; "2020-01-01"] in
  collect_dates (JArr vs) = Ok (JStr <$> ds)
  /\ Permutation (sort_strings ds) ds
  /\ StronglySorted str_le (sort_strings ds)
  /\ (forall first rest, sort_strings ds = first :: rest ->
        Forall (str_le first) ds
        /\ Forall (fun d => str_le d (List.last (first :: rest) first)) ds
        /\ date_range (JArr vs)
           = (e ← strptime first;
              l ← strptime (List.last (first :: rest) first);
              Ok (Some (strftime e, strftime l))))
  /\ (forall d, rendered d (strftime d))
  /\ (forall d y, numeral (year d) y -> 1000 <= year d < 10 * 1000 ->
        String.length y = 4)
  /\ month_name <$> seq 1 12
     = ["January"; "February"; "March"; "April"; "May"; "June"; "July";
        "August"; "September"; "October"; "November"; "December"]
  /\ sort_strings ["2021-03-05"; "2019-11-02"; "2020-01-01"]
     = ["2019-11-02"; "2020-01-01"; "2021-03-05"]
  /\ date_range (JArr [Sample.video_a; Sample.video_b; Sample.video_c])
     = Ok (Some ("November 2019", "March 2021")).
Proof.
  apply (date_range_first_last
           [Sample.video_a; Sample.video_b; Sample.video_c]
           ["2021-03-05"; "2019-11-02"; "2020-01-01"]).
  - repeat constructor.
  - reflexivity.
Defined.

(** ** C8: two runs on the same files *)

(** C8. What a run does is a function of the data file and the template
    alone.  Two runs from worlds that agree on the two files end the same
    way, print the same lines and write the same text to index.html (or both
    write nothing), whatever index.html and the console held before; a run
    leaves the two input files as they are, so running again changes
    neither the ending nor index.html. *)
Theorem build_deterministic w1 w2 :
  data_file w1 = data_file w2 -> template_file w1 = template_file w2 ->
  (exists e lines written,
     run w1 = (e, apply_effect lines written w1)
     /\ run w2 = (e, apply_effect lines written w2))
  /\ data_file (snd (run w1)) = data_file w1
  /\ template_file (snd (run w1)) = template_file w1
  /\ fst (run (snd (run w1))) = fst (run w1)
  /\ output_file (snd (run (snd (run w1)))) = output_file (snd (run w1)).
Proof.
  intros Hd Ht.
  destruct (run_effect (data_file w1) (template_file w1))
    as (e & lines & written & H).
  pose proof (H w1 eq_refl eq_refl) as H1.
  pose proof (H w2 (eq_sym Hd) (eq_sym Ht)) as H2.
  split; [now exists e, lines, written|].
  rewrite H1. simpl. split; [reflexivity|]. split; [reflexivity|].
  rewrite (H (apply_effect lines written w1) eq_refl eq_refl). simpl.
  split; [reflexivity|]. now destruct written.
Qed.

Lemma build_deterministic_witness :
  let w1 := Sample.world_of (Parsed (JArr [Sample.video_a; Sample.video_b])) in
  let w2 := a_world (Parsed (JArr [Sample.video_a; Sample.video_b]))
                    (Some Sample.template) None ["$ python3 build.py"] in
  (exists e lines written,
     run w1 = (e, apply_effect lines written w1)
     /\ run w2 = (e, apply_effect lines written w2))
  /\ data_file (snd (run w1)) = data_file w1
  /\ template_file (snd (run w1)) = template_file w1
  /\ fst (run (snd (run w1))) = fst (run w1)
  /\ output_file (snd (run (snd (run w1)))) = output_file (snd (run w1)).
Proof.
  apply (build_deterministic
           (Sample.world_of (Parsed (JArr [Sample.video_a; Sample.video_b])))
           (a_world (Parsed (JArr [Sample.video_a; Sample.video_b]))
                    (Some Sample.template) None ["$ python3 build.py"]));
    reflexivity.
Defined.

(** ** C9: a date that is no date *)

(** C9 as written fails: only the first and the last of the sorted
    dates are parsed.  A date that does not parse but sorts between two that
    do is never looked at, and the run writes index.html and ends well. *)
Lemma unparseable_middle_date_ignored :
  ~ (forall w vs v d,
       data_file w = Parsed (JArr vs) -> v ∈ vs ->
       field "date" v = Some (JStr d) -> d ≠ "" ->
       (exists e, strptime d = Raise e) ->
       (exists what, fst (run w) = Uncaught (ValueError what))
       /\ output_file (snd (run w)) = output_file w).
Proof.
  intros H.
  destruct (H (Sample.world_of
                 (Parsed (JArr [Sample.video_b; Sample.video_undated; Sample.video_a])))
              [Sample.video_b; Sample.video_undated; Sample.video_a]
              Sample.video_undated "2020-garbage") as [[what Hrun] _].
  - reflexivity.
  - right. left.
  - reflexivity.
  - discriminate.
  - eexists. reflexivity.
  - vm_compute in Hrun. discriminate Hrun.
Qed.

(** C9, amended.  Let the run reach the date range with dates that are all
    strings.  If the least or the greatest of them in lexicographic order
    does not parse as YYYY-MM-DD, the run dies of the uncaught [ValueError]
    of [strptime] before index.html is opened: the file is left as it was.
    If both parse, whatever the dates in between, index.html is opened for
    writing; where the page can be encoded it is written, all five
    placeholders replaced, and the run ends well. *)
Theorem unparseable_bound_aborts w vs c sets tpl ds first rest :
  data_file w = Parsed (JArr vs) -> compact (JArr vs) = Ok c ->
  count_stats (JArr vs) = Ok sets -> template_file w = Some tpl ->
  nonempty_dates vs = JStr <$> ds -> sort_strings ds = first :: rest ->
  let last := List.last (first :: rest) first in
  ((exists e, strptime first = Raise e) \/ (exists e, strptime last = Raise e) ->
   (exists what, fst (run w) = Uncaught (ValueError what))
   /\ output_file (snd (run w)) = output_file w)
  /\ (forall e l, strptime first = Ok e -> strptime last = Ok l ->
      fst (run w) ≠ Uncaught UnicodeEncodeError ->
      fst (run w) = Finished
      /\ exists h page,
           counts_filled tpl (json_dumps (JArr c)) (length vs)
                         (size (fst sets)) (size (snd sets)) h
           /\ replaces "PLACEHOLDER_DATE_RANGE"
                        (strftime e +:+ " – " +:+ strftime l) h page
           /\ output_file (snd (run w)) = Some page).
Proof.
  intros Hw Hc Hs Ht Hds Hsort last.
  pose proof (date_range_strings vs ds (compact_Ok_objects vs c Hc) Hds) as Hd.
  rewrite Hsort in Hd. fold last in Hd. split.
  - intros Hbad.
    assert (exists what, date_range (JArr vs) = Raise (ValueError what))
      as [what Hraise].
    { rewrite Hd. destruct Hbad as [[e He]|[e He]].
      - destruct (strptime_raises_ValueError _ _ He) as [what ->].
        exists what. now rewrite He.
      - destruct (strptime first) as [e0|e0] eqn:He0.
        + destruct (strptime_raises_ValueError _ _ He) as [what ->].
          exists what. simpl. now rewrite He.
        + destruct (strptime_raises_ValueError _ _ He0) as [what ->].
          exists what. reflexivity. }
    rewrite (run_dates_raise w vs c sets tpl _ Hw Hc Hs Ht Hraise). simpl.
    split; [now exists what | reflexivity].
  - intros e l He Hl Henc. rewrite He, Hl in Hd. simpl in Hd.
    destruct (run_written w vs c sets tpl _ Hw Hc Hs Ht Hd Henc) as [_ Hrun].
    rewrite Hrun. simpl.
    split; [reflexivity|]. do 2 eexists.
    split; [apply fill_counts_filled|].
    split; [|reflexivity]. apply replace_replaces. discriminate.
Qed.

Lemma unparseable_bound_aborts_witness :
  let vs := [Sample.video_d; Sample.video_undated] in
  let w := Sample.world_of (Parsed (JArr vs)) in
  let first := "2020-garbage" in
  let last := List.last [first] first in
  ((exists e, strptime first = Raise e) \/ (exists e, strptime last = Raise e) ->
   (exists what, fst (run w) = Uncaught (ValueError what))
   /\ output_file (snd (run w)) = output_file w)
  /\ (forall e l, strptime first = Ok e -> strptime last = Ok l ->
      fst (run w) ≠ Uncaught UnicodeEncodeError ->
      fst (run w) = Finished
      /\ exists h page,
           counts_filled Sample.template
             (json_dumps (JArr (Sample.compacted_d ++ Sample.compacted_undated)))
             (length vs) (size (fst Sample.sets_d)) (size (snd Sample.sets_d)) h
           /\ replaces "PLACEHOLDER_DATE_RANGE"
                        (strftime e +:+ " – " +:+ strftime l) h page
           /\ output_file (snd (run w)) = Some page).
Proof.
  apply (unparseable_bound_aborts
           (Sample.world_of (Parsed (JArr [Sample.video_d; Sample.video_undated])))
           [Sample.video_d; Sample.video_undated]
           (Sample.compacted_d ++ Sample.compacted_undated)
           Sample.sets_d Sample.template ["2020-garbage"] "2020-garbage" []).
  - reflexivity.
  - reflexivity.
  - vm_compute. reflexivity.
  - reflexivity.
  - reflexivity.
  - reflexivity.
Defined.

Example unparseable_only_date_aborts :
  run (Sample.world_of (Parsed (JArr [Sample.video_d; Sample.video_undated])))
  = (Uncaught (ValueError "time data does not match format"),
     say (progress 2 (json_dumps (JArr (Sample.compacted_d ++ Sample.compacted_undated))))
         (Sample.world_of (Parsed (JArr [Sample.video_d; Sample.video_undated])))).
Proof. vm_compute. reflexivity. Qed.

(** * Further properties of the script *)

(** ** X1: a data file that is not JSON *)



(** ** X2: a missing template *)

(** X2. The template is opened only after compaction and counting.  If they
    succeed and template.html does not exist, the run has printed its
    progress up to the compacted data, prints that the template was not
    found, ends by [sys.exit(1)] and leaves index.html as it was. *)
Theorem missing_template w data videos c sets :
  data_file w = Parsed data -> py_len_json data = Ok videos ->
  compact data = Ok c -> count_stats data = Ok sets ->
  template_file w = None ->
  fst (run w) = SysExit 1
  /\ exit_code (fst (run w)) = 1%Z
  /\ console (snd (run w))
     = console w ++ banner ++ loaded videos ++ compacted (json_dumps (JArr c))
       ++ ["  ✗ ERROR: template.html not found!"]
  /\ output_file (snd (run w)) = output_file w.
Proof.
  intros Hw Hlen Hc Hs Ht. rewrite (run_stages w data Hw), Hlen, Hc, Hs, Ht.
  cbv [compacted]. simpl. repeat split.
Qed.

Lemma missing_template_witness :
  let w := a_world (Parsed (JArr [Sample.video_d])) None (Some "<p>old</p>") [] in
  fst (run w) = SysExit 1
  /\ exit_code (fst (run w)) = 1%Z
  /\ console (snd (run w))
     = console w ++ banner ++ loaded 1 ++ compacted (json_dumps (JArr Sample.compacted_d))
       ++ ["  ✗ ERROR: template.html not found!"]
  /\ output_file (snd (run w)) = output_file w.
Proof.
  apply (missing_template
           (a_world (Parsed (JArr [Sample.video_d])) None (Some "<p>old</p>") [])
           (JArr [Sample.video_d]) 1 Sample.compacted_d Sample.sets_d).
  - reflexivity.
  - reflexivity.
  - reflexivity.
  - vm_compute. reflexivity.
  - reflexivity.
Defined.

(** ** X3: what a run leaves in index.html *)


(** A title with a lone surrogate is a valid record; the file that held a
    page is empty after the run. *)
Example surrogate_empties_output :
  let w := Sample.world_of (Parsed (JArr [Sample.video_surrogate])) in
  valid_list [Sample.video_surrogate] = true
  /\ output_file w = Some "<p>old</p>"
  /\ run w = (Uncaught UnicodeEncodeError,
              wrote "" (progress 1 (json_dumps (JArr Sample.compacted_surrogate))) w).
Proof. repeat split; vm_compute; reflexivity. Qed.

(** ** X4: the run that ends well *)

(** X4. On a valid input list with a template, when the least and the
    greatest of the non-empty dates parse and the page can be encoded, the
    run ends well with exit code 0: index.html holds the template with all
    five placeholders replaced (the compact JSON, then the numerals of the
    number of records, of distinct topics and of distinct sutta ids, then
    the two rendered dates joined by an en dash, each replacement made from
    left to right in the text left by the one before), and the console shows
    the progress, the report and the closing lines. *)
Theorem run_ends_well w vs tpl ds first rest e l :
  data_file w = Parsed (JArr vs) -> valid_list vs = true ->
  template_file w = Some tpl ->
  nonempty_dates vs = JStr <$> ds -> sort_strings ds = first :: rest ->
  strptime first = Ok e -> strptime (List.last (first :: rest) first) = Ok l ->
  fst (run w) ≠ Uncaught UnicodeEncodeError ->
  exists c h earliest latest page,
    compact (JArr vs) = Ok c
    /\ let topics := distinct (topic_strings vs) in
       let suttas := distinct (sutta_ids vs) in
       counts_filled tpl (json_dumps (JArr c)) (length vs) topics suttas h
       /\ rendered e earliest /\ rendered l latest
       /\ replaces "PLACEHOLDER_DATE_RANGE" (earliest +:+ " – " +:+ latest) h page
       /\ fst (run w) = Finished
       /\ exit_code (fst (run w)) = 0%Z
       /\ output_file (snd (run w)) = Some page
       /\ console (snd (run w))
          = console w ++ progress (length vs) (json_dumps (JArr c))
            ++ report page (length vs) topics suttas
            ++ closing earliest latest.
Proof.
  intros Hw Hvs Ht Hds Hsort He Hl Henc.
  destruct (valid_list_compacts vs Hvs) as [c Hc].
  pose proof (count_stats_valid vs Hvs) as Hs.
  pose proof (date_range_strings vs ds (compact_Ok_objects vs c Hc) Hds) as Hd.
  rewrite Hsort, He, Hl in Hd. simpl in Hd.
  destruct (run_written w vs c _ tpl _ Hw Hc Hs Ht Hd Henc) as [_ Hrun].
  simpl in Hrun. rewrite !size_string_set in Hrun.
  exists c. do 2 eexists. exists (strftime l). eexists.
  split; [exact Hc|]. cbv zeta.
  split; [apply fill_counts_filled|].
  split; [apply strftime_rendered|]. split; [apply strftime_rendered|].
  split; [apply replace_replaces; discriminate|].
  rewrite Hrun. simpl. rewrite <- ?app_assoc. repeat split.
Qed.

Lemma run_ends_well_witness :
  let vs := [Sample.video_a; Sample.video_b; Sample.video_c] in
  let w := Sample.world_of (Parsed (JArr vs)) in
  let e := {| year := 2019; month := 11; day := 2 |} in
  let l := {| year := 2021; month := 3; day := 5 |} in
  exists c h earliest latest page,
    compact (JArr vs) = Ok c
    /\ let topics := distinct (topic_strings vs) in
       let suttas := distinct (sutta_ids vs) in
       counts_filled Sample.template (json_dumps (JArr c)) (length vs) topics suttas h
       /\ rendered e earliest /\ rendered l latest
       /\ replaces "PLACEHOLDER_DATE_RANGE" (earliest +:+ " – " +:+ latest) h page
       /\ fst (run w) = Finished
       /\ exit_code (fst (run w)) = 0%Z
       /\ output_file (snd (run w)) = Some page
       /\ console (snd (run w))
          = console w ++ progress (length vs) (json_dumps (JArr c))
            ++ report page (length vs) topics suttas
            ++ closing earliest latest.
Proof.
  apply (run_ends_well
           (Sample.world_of (Parsed (JArr [Sample.video_a; Sample.video_b; Sample.video_c])))
           [Sample.video_a; Sample.video_b; Sample.video_c] Sample.template
           ["2021-03-05"; "2019-11-02"; "2020-01-01"]
           "2019-11-02" ["2020-01-01"; "2021-03-05"]); try reflexivity.
  vm_compute. discriminate.
Defined.

(** ** X19: a page that cannot be encoded *)

(** X19. index.html is opened for writing before the page is encoded.  When
    the run reaches step 6 and the page, with its placeholders replaced,
    holds a lone surrogate (a title with the escape [\ud800] puts one
    there), the run dies of the uncaught [UnicodeEncodeError] after the line
    about the template, and index.html is left empty: the page it held
    before is lost. *)
Theorem unencodable_page_empties_output w vs c sets tpl range h page :
  data_file w = Parsed (JArr vs) -> compact (JArr vs) = Ok c ->
  count_stats (JArr vs) = Ok sets -> template_file w = Some tpl ->
  date_range (JArr vs) = Ok range ->
  counts_filled tpl (json_dumps (JArr c)) (length vs)
                (size (fst sets)) (size (snd sets)) h ->
  range_filled range h page ->
  has_surrogate page = true ->
  fst (run w) = Uncaught UnicodeEncodeError
  /\ exit_code (fst (run w)) = 1%Z
  /\ output_file (snd (run w)) = Some ""
  /\ console (snd (run w))
     = console w ++ progress (length vs) (json_dumps (JArr c)).
Proof.
  intros Hw Hc Hs Ht Hd Hh Hpage Hsur.
  apply counts_filled_unique in Hh. subst h.
  apply range_filled_unique in Hpage. subst page.
  rewrite (run_writes w vs c sets tpl range Hw Hc Hs Ht Hd). cbv zeta.
  rewrite Hsur. repeat split.
Qed.

Lemma unencodable_page_empties_output_witness :
  let w := Sample.world_of (Parsed (JArr [Sample.video_surrogate])) in
  fst (run w) = Uncaught UnicodeEncodeError
  /\ exit_code (fst (run w)) = 1%Z
  /\ output_file (snd (run w)) = Some ""
  /\ console (snd (run w))
     = console w ++ progress (length [Sample.video_surrogate])
                             (json_dumps (JArr Sample.compacted_surrogate)).
Proof.
  apply (unencodable_page_empties_output
           (Sample.world_of (Parsed (JArr [Sample.video_surrogate])))
           [Sample.video_surrogate] Sample.compacted_surrogate (∅, ∅)
           Sample.template (Some ("November 2019", "November 2019"))
           (fill_counts Sample.template
              (json_dumps (JArr Sample.compacted_surrogate)) 1 0 0)
           (fill_date_range
              (fill_counts Sample.template
                 (json_dumps (JArr Sample.compacted_surrogate)) 1 0 0)
              (Some ("November 2019", "November 2019")))).
  - reflexivity.
  - reflexivity.
  - vm_compute. reflexivity.
  - reflexivity.
  - reflexivity.
  - apply fill_counts_filled.
  - apply fill_date_range_filled.
  - vm_compute. reflexivity.
Defined.

(** ** X5: a data file that holds no list *)

Lemma code_points_cons c s : code_points (String c s) ≠ [].
Proof.
  simpl. destruct s as [|c' s]; [discriminate|].
  destruct (is_continuation c'); [|discriminate].
  destruct (code_points (String c' s)); discriminate.
Qed.

Lemma not_a_list_raises data :
  is_array data = false -> data ≠ JObj [] -> data ≠ JStr "" ->
  (exists what, py_len_json data = Raise (TypeError what))
  \/ (exists n what, py_len_json data = Ok n /\ compact data = Raise (TypeError what)).
Proof.
  intros Harr Hobj Hstr.
  destruct data as [|b|z|s|xs|kvs]; try discriminate;
    try (left; eexists; reflexivity); right.
  - destruct s as [|ch s]; [contradiction|].
    exists (py_len (String ch s)). unfold compact.
    change (py_iter (JStr (String ch s))) with (Ok (map JStr (code_points (String ch s)))).
    destruct (code_points (String ch s)) as [|p ps] eqn:Hp;
      [exfalso; exact (code_points_cons _ _ Hp)|].
    eexists. split; reflexivity.
  - destruct kvs as [|[k v] kvs]; [contradiction|].
    eexists _, _. split; reflexivity.
Qed.

(** X5. Nothing checks that the parsed data is a list.  If it is a number, a
    boolean or null, [len(data)] raises a [TypeError] that neither handler
    of step 1 catches; if it is a non-empty object or string, the count is
    printed and compaction raises [TypeError] on the first key or character.
    In both cases the run dies of the uncaught error and index.html is left
    as it was. *)
Theorem top_level_not_a_list w data :
  data_file w = Parsed data -> is_array data = false ->
  data ≠ JObj [] -> data ≠ JStr "" ->
  (exists what, fst (run w) = Uncaught (TypeError what))
  /\ output_file (snd (run w)) = output_file w
  /\ (console (snd (run w)) = console w ++ banner
      \/ exists n, console (snd (run w)) = console w ++ banner ++ loaded n).
Proof.
  intros Hw Harr Hobj Hstr. rewrite (run_stages w data Hw).
  destruct (not_a_list_raises data Harr Hobj Hstr)
    as [[what ->]|(n & what & -> & ->)]; simpl.
  - split; [eauto|]. split; [reflexivity | now left].
  - split; [eauto|]. split; [reflexivity | right; eauto].
Qed.

Lemma top_level_not_a_list_witness :
  let w := Sample.world_of (Parsed Sample.video_a) in
  (exists what, fst (run w) = Uncaught (TypeError what))
  /\ output_file (snd (run w)) = output_file w
  /\ (console (snd (run w)) = console w ++ banner
      \/ exists n, console (snd (run w)) = console w ++ banner ++ loaded n).
Proof.
  apply (top_level_not_a_list (Sample.world_of (Parsed Sample.video_a)) Sample.video_a);
    [reflexivity | reflexivity | discriminate | discriminate].
Defined.

(** ** X6: ending well takes a date *)

Lemma dated_or_not vs :
  Forall (fun v => has_date v = false) vs \/ Exists (fun v => has_date v = true) vs.
Proof.
  induction vs as [|v vs [IH|IH]].
  - left. constructor.
  - destruct (has_date v) eqn:Hv; [right; now left | left; now constructor].
  - right. now right.
Qed.

(** X6. A run on a list of records ends well only if some record has a
    non-empty date value: without one the last report line always fails. *)
Theorem ends_well_only_with_a_date w vs :
  data_file w = Parsed (JArr vs) -> fst (run w) = Finished ->
  Exists (fun v => has_date v = true) vs.
Proof.
  intros Hw. rewrite (run_stages w _ Hw). simpl py_len_json. cbv iota.
  destruct (compact (JArr vs)) as [c|e] eqn:Hc; [|discriminate].
  destruct (count_stats (JArr vs)) as [sets|e]; [|discriminate].
  destruct (template_file w) as [tpl|]; [|discriminate].
  destruct (dated_or_not vs) as [Hnone|Hsome]; [|intros _; exact Hsome].
  rewrite (date_range_none vs (compact_Ok_objects vs c Hc) Hnone). cbv zeta.
  destruct (has_surrogate _); discriminate.
Qed.

Lemma ends_well_only_with_a_date_witness :
  Exists (fun v => has_date v = true) [Sample.video_d; Sample.video_b].
Proof.
  apply (ends_well_only_with_a_date
           (Sample.world_of (Parsed (JArr [Sample.video_d; Sample.video_b])))
           [Sample.video_d; Sample.video_b]); reflexivity.
Defined.

(** ** X7: a topic that no set can hold *)

(** Raising nothing but [TypeError]. *)
Lemma for_fold_some_raise {A S} (body : S -> A -> result S) xs s :
  Exists (fun x => forall s, exists e, body s x = Raise e) xs ->
  exists e, for_fold body xs s = Raise e.
Proof.
  intros H. revert s. induction H as [x xs Hx|x xs _ IH]; intros s; simpl.
  - destruct (Hx s) as [e ->]. eauto.
  - destruct (body s x) as [s'|e]; [apply IH | eauto].
Qed.

Lemma for_fold_only_TypeError {A S} (body : S -> A -> result S) xs s e :
  Forall (fun x => forall s e, body s x = Raise e -> exists what, e = TypeError what) xs ->
  for_fold body xs s = Raise e -> exists what, e = TypeError what.
Proof.
  intros H. revert s. induction H as [|x xs Hx _ IH]; intros s; simpl.
  - discriminate.
  - destruct (body s x) as [s'|e'] eqn:Hb; simpl.
    + apply IH.
    + intros [= <-]. eapply Hx, Hb.
Qed.

Lemma py_iter_only_TypeError v e : py_iter v = Raise e -> exists what, e = TypeError what.
Proof. destruct v; simpl; try discriminate; intros [= <-]; eauto. Qed.

Lemma py_hash_only_TypeError v e : py_hash v = Raise e -> exists what, e = TypeError what.
Proof. destruct v; simpl; try discriminate; intros [= <-]; eauto. Qed.

Lemma add_topic_only_TypeError s t e :
  add_topic s t = Raise e -> exists what, e = TypeError what.
Proof.
  unfold add_topic. destruct (py_hash t) as [k|e'] eqn:Hk; simpl; [discriminate|].
  intros [= <-]. eapply py_hash_only_TypeError, Hk.
Qed.

Lemma add_sutta_only_TypeError s x c e :
  compact_sutta_ref x = Ok c ->
  add_sutta s x = Raise e -> exists what, e = TypeError what.
Proof.
  unfold compact_sutta_ref, add_sutta. intros Hc.
  split_bind_as Hc i Hi. rewrite Hi. simpl.
  destruct (py_hash i) as [k|e'] eqn:Hk; simpl; [discriminate|].
  intros [= <-]. eapply py_hash_only_TypeError, Hk.
Qed.

(** After a record has been compacted, counting it can only fail with a
    [TypeError]: a field that cannot be iterated, or a value that cannot be
    hashed. *)
Lemma stats_only_TypeError acc v c e :
  compact_record v = Ok c ->
  stats_of_record acc v = Raise e -> exists what, e = TypeError what.
Proof.
  intros Hc. pose proof (compact_record_Ok_object v c Hc) as Hobj.
  unfold compact_record in Hc.
  split_bind_as Hc t Ht. split_bind_as Hc d Hd. split_bind_as Hc u Hu.
  split_bind_as Hc s Hs. split_bind_as Hc tp Htp. split_bind_as Hc srs Hsrs.
  split_bind_as Hc srl Hsrl. split_bind_as Hc sr Hsr.
  unfold stats_of_record. rewrite Htp, Hsrs. simpl.
  destruct (py_iter tp) as [tl|e'] eqn:Htl; simpl;
    [|intros [= <-]; eapply py_iter_only_TypeError, Htl].
  destruct (for_fold add_topic tl (fst acc)) as [ts|e'] eqn:Hts; simpl.
  2:{ intros [= <-]. eapply for_fold_only_TypeError; [|exact Hts].
      apply Forall_forall. intros x _ s0 e0. apply add_topic_only_TypeError. }
  rewrite Hsrl. simpl.
  destruct (for_fold add_sutta srl (snd acc)) as [ss|e'] eqn:Hss; simpl; [discriminate|].
  intros [= <-]. eapply for_fold_only_TypeError; [|exact Hss].
  apply for_each_Forall2 in Hsr. apply Forall_forall. intros x Hx s0 e0.
  destruct (Forall2_Ok_each _ _ _ x Hsr Hx) as [y Hy].
  now apply (add_sutta_only_TypeError s0 x y).
Qed.

Lemma unhashable_topic_raises acc v :
  Exists (fun t => is_container t = true) (entries "topics" v) ->
  exists e, stats_of_record acc v = Raise e.
Proof.
  intros H. unfold stats_of_record.
  destruct (py_get v "topics" (JArr [])) as [topics|e] eqn:Hget; simpl; [|eauto].
  apply py_get_Ok in Hget as [_ ->]. unfold entries in H.
  destruct (field "topics" v) as [[| | | |ts|]|]; try (now inversion H).
  simpl.
  destruct (for_fold_some_raise add_topic ts (fst acc)) as [e He].
  { eapply Exists_impl; [exact H|]. intros t Ht s.
    unfold add_topic. destruct t; try discriminate; simpl; eauto. }
  rewrite He. eauto.
Qed.

(** X7. A record may pass compaction and still stop the build: if the
    [topics] of some record hold a list or an object, which no set can hold,
    counting raises a [TypeError] after the compacted size has been printed
    and before the template is opened; index.html is left as it was. *)
Theorem unhashable_topic_aborts w vs c :
  data_file w = Parsed (JArr vs) -> compact (JArr vs) = Ok c ->
  Exists (fun v => Exists (fun t => is_container t = true) (entries "topics" v)) vs ->
  (exists what, fst (run w) = Uncaught (TypeError what))
  /\ output_file (snd (run w)) = output_file w
  /\ console (snd (run w))
     = console w ++ banner ++ loaded (length vs) ++ compacted (json_dumps (JArr c)).
Proof.
  intros Hw Hc Hbad. rewrite (run_stages w _ Hw), Hc. simpl py_len_json. cbv iota zeta.
  destruct (count_stats (JArr vs)) as [sets|e] eqn:Hs.
  - exfalso. unfold count_stats in Hs. simpl in Hs.
    destruct (for_fold_some_raise stats_of_record vs (∅, ∅)) as [e He];
      [|congruence].
    eapply Exists_impl; [exact Hbad|]. intros v Hv s. now apply unhashable_topic_raises.
  - assert (exists what, e = TypeError what) as [what ->].
    { unfold count_stats in Hs. simpl in Hs.
      eapply for_fold_only_TypeError; [|exact Hs].
      unfold compact in Hc. simpl in Hc. apply for_each_Forall2 in Hc.
      apply Forall_forall. intros v Hv s e0.
      destruct (Forall2_Ok_each _ _ _ v Hc Hv) as [y Hy].
      now apply (stats_only_TypeError s v y). }
    simpl. split; [eauto|]. split; reflexivity.
Qed.

Lemma unhashable_topic_aborts_witness :
  let w := Sample.world_of (Parsed (JArr [Sample.video_nested])) in
  (exists what, fst (run w) = Uncaught (TypeError what))
  /\ output_file (snd (run w)) = output_file w
  /\ console (snd (run w))
     = console w ++ banner ++ loaded (length [Sample.video_nested])
       ++ compacted (json_dumps (JArr Sample.compacted_nested)).
Proof.
  apply (unhashable_topic_aborts
           (Sample.world_of (Parsed (JArr [Sample.video_nested])))
           [Sample.video_nested] Sample.compacted_nested).
  - reflexivity.
  - reflexivity.
  - left. right. left. reflexivity.
Defined.

(** ** X8: the sutta count *)

(** X8. For every valid input list the set of suttas built in step 3 has as
    many elements as there are distinct [sutta_id] strings in the
    [sutta_refs] of all records: references to one sutta count once, in one
    record or across records, whatever their url and label. *)
Theorem sutta_count_distinct vs :
  valid_list vs = true ->
  exists topics suttas,
    count_stats (JArr vs) = Ok (topics, suttas)
    /\ size suttas = distinct (sutta_ids vs)
    /\ distinct (sutta_ids vs) <= length (sutta_ids vs).
Proof.
  intros Hvs. eexists _, _. split; [apply (count_stats_valid vs Hvs)|].
  split; [apply size_string_set|].
  unfold distinct. generalize (sutta_ids vs). intros l.
  induction l as [|x l IH]; simpl; [lia|].
  destruct (decide_rel elem_of x l); simpl; lia.
Qed.

Lemma sutta_count_distinct_witness :
  exists topics suttas,
    count_stats (JArr [Sample.video_a; Sample.video_a; Sample.video_b]) = Ok (topics, suttas)
    /\ size suttas = distinct (sutta_ids [Sample.video_a; Sample.video_a; Sample.video_b])
    /\ distinct (sutta_ids [Sample.video_a; Sample.video_a; Sample.video_b])
       <= length (sutta_ids [Sample.video_a; Sample.video_a; Sample.video_b]).
Proof.
  apply (sutta_count_distinct [Sample.video_a; Sample.video_a; Sample.video_b]).
  reflexivity.
Defined.

(** ** X9: the order of the records *)

#[local] Instance str_le_antisym : AntiSymm eq str_le.
Proof. intros a b. apply String.leb_antisym. Qed.

Lemma sort_strings_perm_eq l l' : l ≡ₚ l' -> sort_strings l = sort_strings l'.
Proof.
  intros H. apply (StronglySorted_unique str_le); try apply sort_strings_sorted.
  now rewrite !sort_strings_perm.
Qed.

Lemma mapM_as_str_strings ss : mapM as_str (JStr <$> ss) = Some ss.
Proof.
  induction ss as [|d ds IH]; simpl; [reflexivity|].
  change (list_fmap string json JStr ds) with (JStr <$> ds). now rewrite IH.
Qed.

Lemma strings_or_not l : (exists ss, l = JStr <$> ss) \/ mapM as_str l = None.
Proof.
  induction l as [|x l [[ss ->]|IH]].
  - left. now exists [].
  - destruct x; try (right; reflexivity). left. now exists (s :: ss).
  - right. simpl. rewrite IH. now destruct (as_str x).
Qed.

(** [sorted] does not depend on the order of its argument. *)
Lemma py_sorted_perm l l' : l ≡ₚ l' -> py_sorted l = py_sorted l'.
Proof.
  intros H. destruct (strings_or_not l) as [[ss ->]|Hl].
  - symmetry in H. apply Permutation_map_inv in H as (ss' & -> & Hss).
    change (map JStr ss') with (JStr <$> ss').
    rewrite !py_sorted_strings. f_equal. now apply sort_strings_perm_eq.
  - destruct (strings_or_not l') as [[ss' ->]|Hl'].
    + apply Permutation_map_inv in H as (ss & -> & _).
      change (map JStr ss) with (JStr <$> ss) in Hl.
      rewrite mapM_as_str_strings in Hl. discriminate.
    + unfold py_sorted. now rewrite Hl, Hl'.
Qed.

Lemma valid_list_perm vs vs' : vs ≡ₚ vs' -> valid_list vs = true -> valid_list vs' = true.
Proof.
  unfold valid_list. rewrite !forallb_Forall. intros H. now rewrite H.
Qed.

(** X9. The statistics do not depend on the order of the records: for a
    valid input list and any rearrangement of it, step 3 builds the same two
    sets, so the same counts are shown, and the date range is the same. *)
Theorem statistics_ignore_order vs vs' :
  vs ≡ₚ vs' -> valid_list vs = true ->
  valid_list vs' = true
  /\ count_stats (JArr vs') = count_stats (JArr vs)
  /\ distinct (topic_strings vs') = distinct (topic_strings vs)
  /\ distinct (sutta_ids vs') = distinct (sutta_ids vs)
  /\ date_range (JArr vs') = date_range (JArr vs).
Proof.
  intros H Hvs. pose proof (valid_list_perm vs vs' H Hvs) as Hvs'.
  assert (Ht : topic_strings vs ≡ₚ topic_strings vs').
  { unfold topic_strings. now apply Permutation_flat_map. }
  assert (Hs : sutta_ids vs ≡ₚ sutta_ids vs').
  { unfold sutta_ids. now apply Permutation_flat_map. }
  assert (Hsets : count_stats (JArr vs') = count_stats (JArr vs)).
  { rewrite !count_stats_valid by assumption.
    f_equal. f_equal; apply list_to_set_perm_L; now rewrite ?Ht, ?Hs. }
  split; [exact Hvs'|]. split; [exact Hsets|].
  split; [now rewrite <- !size_string_set, Ht|].
  split; [now rewrite <- !size_string_set, Hs|].
  destruct (valid_list_compacts vs Hvs) as [c Hc].
  destruct (valid_list_compacts vs' Hvs') as [c' Hc'].
  unfold date_range.
  rewrite (collect_dates_objects vs' (compact_Ok_objects vs' c' Hc')).
  rewrite (collect_dates_objects vs (compact_Ok_objects vs c Hc)).
  simpl. rewrite (py_sorted_perm (nonempty_dates vs') (nonempty_dates vs)); [reflexivity|].
  unfold nonempty_dates. now rewrite H.
Qed.

Lemma statistics_ignore_order_witness :
  let vs := [Sample.video_a; Sample.video_b; Sample.video_c] in
  let vs' := [Sample.video_b; Sample.video_a; Sample.video_c] in
  valid_list vs' = true
  /\ count_stats (JArr vs') = count_stats (JArr vs)
  /\ distinct (topic_strings vs') = distinct (topic_strings vs)
  /\ distinct (sutta_ids vs') = distinct (sutta_ids vs)
  /\ date_range (JArr vs') = date_range (JArr vs).
Proof.
  apply (statistics_ignore_order
           [Sample.video_a; Sample.video_b; Sample.video_c]
           [Sample.video_b; Sample.video_a; Sample.video_c]).
  - apply perm_swap.
  - reflexivity.
Defined.

(** ** X10: what compaction reads of a record *)

(** X10. Compaction looks at eight fields of a record and at nothing else:
    two objects that agree on these fields, whatever other keys they hold
    and in whatever order, have the same compact form (or raise the same
    exception). *)
Theorem compact_reads_eight_fields v v' :
  is_object v = true -> is_object v' = true ->
  (forall k, k ∈ record_fields -> field k v = field k v') ->
  compact_record v = compact_record v'.
Proof.
  intros Hv Hv' H. unfold compact_record.
  rewrite !py_getitem_field, !py_get_field by assumption.
  rewrite (H "title"), (H "date"), (H "youtube_url"), (H "summary"),
    (H "topics"), (H "sutta_refs"), (H "other_refs"), (H "related_videos");
    [reflexivity|..]; unfold record_fields; set_solver.
Qed.

Lemma compact_reads_eight_fields_witness :
  compact_record Sample.video_c
  = compact_record
      (JObj [("thumbnail", JStr "c.jpg"); ("youtube_url", JStr "https://youtu.be/c");
             ("title", JStr "Metta"); ("date", JStr "2020-01-01")]).
Proof.
  apply (compact_reads_eight_fields Sample.video_c
           (JObj [("thumbnail", JStr "c.jpg"); ("youtube_url", JStr "https://youtu.be/c");
                  ("title", JStr "Metta"); ("date", JStr "2020-01-01")]));
    [reflexivity | reflexivity |].
  intros k Hk. unfold record_fields in Hk.
  repeat (apply elem_of_cons in Hk as [->|Hk]; [reflexivity|]).
  now apply elem_of_nil in Hk.
Defined.

(** ** X11: the label of a sutta reference *)

(** X11. The [l] of a compact sutta reference is never null, false, zero or
    an empty list or object: every label without truth value becomes the
    empty string, every other label is kept as it is.  The [url] next to it
    is whatever the source holds. *)
Theorem compact_label_never_falsy s c :
  compact_sutta_ref s = Ok c ->
  exists l,
    field "l" c = Some l
    /\ (truthy l = true \/ l = JStr "")
    /\ (forall x, field "label" s = Some x -> truthy x = true -> l = x)
    /\ (forall x, field "label" s = Some x -> truthy x = false -> l = JStr "")
    /\ field "url" c = Some (default (JStr "") (field "url" s)).
Proof.
  unfold compact_sutta_ref. intros H.
  split_bind_as H i Hi. split_bind_as H u Hu. split_bind_as H l Hl.
  injection H as <-.
  apply py_get_Ok in Hu as [_ ->]. apply py_get_Ok in Hl as [_ ->].
  exists (if truthy (default (JStr "") (field "label" s))
          then default (JStr "") (field "label" s) else JStr "").
  split; [reflexivity|].
  destruct (field "label" s) as [x|]; simpl.
  - destruct (truthy x) eqn:Hx.
    + split; [now left|]. split; [now intros y [= <-]|].
      split; [|reflexivity]. intros y [= <-]. congruence.
    + split; [now right|]. split; [intros y [= <-]; congruence|].
      split; [now intros y [= <-] | reflexivity].
  - split; [now right|]. split; [discriminate|]. split; [discriminate | reflexivity].
Qed.

Lemma compact_label_never_falsy_witness :
  let s := JObj [("sutta_id", JStr "SN 56.11"); ("label", JBool false)] in
  let c := JObj [("id", JStr "SN 56.11"); ("url", JStr ""); ("l", JStr "")] in
  exists l,
    field "l" c = Some l
    /\ (truthy l = true \/ l = JStr "")
    /\ (forall x, field "label" s = Some x -> truthy x = true -> l = x)
    /\ (forall x, field "label" s = Some x -> truthy x = false -> l = JStr "")
    /\ field "url" c = Some (default (JStr "") (field "url" s)).
Proof.
  apply (compact_label_never_falsy
           (JObj [("sutta_id", JStr "SN 56.11"); ("label", JBool false)])
           (JObj [("id", JStr "SN 56.11"); ("url", JStr ""); ("l", JStr "")])).
  reflexivity.
Defined.

(** ** X12: compaction record by record *)

Lemma for_each_app {A B} (f : A -> result B) xs ys :
  for_each f (xs ++ ys)
  = (a ← for_each f xs; b ← for_each f ys; Ok (a ++ b)).
Proof.
  induction xs as [|x xs IH]; simpl.
  - destruct (for_each f ys); reflexivity.
  - destruct (f x) as [y|e]; simpl; [|reflexivity].
    rewrite IH. destruct (for_each f xs) as [a|e]; simpl; [|reflexivity].
    destruct (for_each f ys); reflexivity.
Qed.

(** X12. Records are compacted one by one, in order, each on its own: the
    compact list of two lists put together is the compact list of the first
    followed by that of the second, and it fails where the first of them
    fails. *)
Theorem compact_app xs ys :
  compact (JArr (xs ++ ys))
  = (a ← compact (JArr xs); b ← compact (JArr ys); Ok (a ++ b)).
Proof. unfold compact. simpl py_iter. cbv beta iota. apply for_each_app. Qed.

(** ** X13 and X14: what the replacements leave alone *)

(** X13. A template that holds none of the five placeholder tokens is copied
    to index.html as it is, whatever the data: each replacement finds
    nothing to replace. *)
Theorem template_without_tokens w data videos c sets tpl range :
  data_file w = Parsed data -> py_len_json data = Ok videos ->
  compact data = Ok c -> count_stats data = Ok sets ->
  template_file w = Some tpl -> date_range data = Ok range ->
  Forall (fun token => ~ occurs_in token tpl) placeholders ->
  output_file (snd (run w)) = Some tpl.
Proof.
  intros Hw Hlen Hc Hs Ht Hd Hno.
  rewrite (run_stages w data Hw), Hlen, Hc, Hs, Ht, Hd. cbv zeta.
  assert (fill_date_range
            (fill_counts tpl (json_dumps (JArr c)) videos (size (fst sets)) (size (snd sets)))
            range = tpl) as ->.
  { unfold placeholders in Hno.
    inversion_clear Hno as [|? ? H1 Hno']. inversion_clear Hno' as [|? ? H2 Hno].
    inversion_clear Hno as [|? ? H3 Hno']. inversion_clear Hno' as [|? ? H4 Hno].
    inversion_clear Hno as [|? ? H5 _].
    unfold fill_counts.
    rewrite (replace_absent "PLACEHOLDER_DATA") by (assumption || discriminate).
    rewrite (replace_absent "PLACEHOLDER_VIDEO_COUNT") by (assumption || discriminate).
    rewrite (replace_absent "PLACEHOLDER_TOPIC_COUNT") by (assumption || discriminate).
    rewrite (replace_absent "PLACEHOLDER_SUTTA_COUNT") by (assumption || discriminate).
    destruct range as [[earliest latest]|]; [|reflexivity].
    unfold fill_date_range.
    now rewrite (replace_absent "PLACEHOLDER_DATE_RANGE") by (assumption || discriminate). }
  rewrite (template_encodes w tpl Ht).
  now destruct range as [[earliest latest]|].
Qed.

(** X14. In a template whose one placeholder is PLACEHOLDER_DATA, the token
    is replaced by the compact JSON and the rest is kept, provided the text
    so obtained holds none of the other four tokens: the later replacements
    run over the inserted data as well as over the template. *)
Theorem data_embedded_verbatim pre post compact_json videos topics suttas range :
  (forall x y, pre +:+ "PLACEHOLDER_DATA" = x +:+ "PLACEHOLDER_DATA" +:+ y -> y = "") ->
  ~ occurs_in "PLACEHOLDER_DATA" post ->
  Forall (fun token => ~ occurs_in token (pre +:+ compact_json +:+ post))
         ["PLACEHOLDER_VIDEO_COUNT"; "PLACEHOLDER_TOPIC_COUNT";
          "PLACEHOLDER_SUTTA_COUNT"; "PLACEHOLDER_DATE_RANGE"] ->
  fill_date_range
    (fill_counts (pre +:+ "PLACEHOLDER_DATA" +:+ post) compact_json videos topics suttas)
    range
  = pre +:+ compact_json +:+ post.
Proof.
  intros Hlast Hpost Hno.
  inversion_clear Hno as [|? ? H2 Hno']. inversion_clear Hno' as [|? ? H3 Hno].
  inversion_clear Hno as [|? ? H4 Hno']. inversion_clear Hno' as [|? ? H5 _].
  unfold fill_counts.
  rewrite (replace_first "PLACEHOLDER_DATA") by (assumption || discriminate).
  rewrite (replace_absent "PLACEHOLDER_DATA" _ post) by (assumption || discriminate).
  rewrite (replace_absent "PLACEHOLDER_VIDEO_COUNT") by (assumption || discriminate).
  rewrite (replace_absent "PLACEHOLDER_TOPIC_COUNT") by (assumption || discriminate).
  rewrite (replace_absent "PLACEHOLDER_SUTTA_COUNT") by (assumption || discriminate).
  destruct range as [[earliest latest]|]; [|reflexivity].
  unfold fill_date_range.
  now rewrite (replace_absent "PLACEHOLDER_DATE_RANGE") by (assumption || discriminate).
Qed.

(** Where the data holds the text of a later token, that text is replaced
    too: a title is not protected. *)
Example token_in_title_replaced :
  fill_counts "PLACEHOLDER_DATA"
    (json_dumps (JArr [JObj [("t", JStr "PLACEHOLDER_VIDEO_COUNT explained")]]))
    1 0 0
  = json_dumps (JArr [JObj [("t", JStr "1 explained")]]).
Proof. reflexivity. Qed.

Lemma template_without_tokens_witness :
  output_file
    (snd (run (a_world (Parsed (JArr [Sample.video_d]))
                       (Some "<p>Nothing to fill in.</p>") None [])))
  = Some "<p>Nothing to fill in.</p>".
Proof.
  apply (template_without_tokens
           (a_world (Parsed (JArr [Sample.video_d]))
                    (Some "<p>Nothing to fill in.</p>") None [])
           (JArr [Sample.video_d]) 1 Sample.compacted_d Sample.sets_d
           "<p>Nothing to fill in.</p>" None).
  - reflexivity.
  - reflexivity.
  - reflexivity.
  - vm_compute. reflexivity.
  - reflexivity.
  - reflexivity.
  - unfold placeholders.
    repeat (constructor; [apply occurs_inb_false; [discriminate | reflexivity]|]).
    constructor.
Defined.

Lemma data_embedded_verbatim_witness :
  fill_date_range
    (fill_counts ("<script>const D=" +:+ "PLACEHOLDER_DATA" +:+ ";</script>")
                 (json_dumps (JArr Sample.compacted_d)) 1 1 0)
    None
  = "<script>const D=" +:+ json_dumps (JArr Sample.compacted_d) +:+ ";</script>".
Proof.
  apply (data_embedded_verbatim "<script>const D=" ";</script>"
           (json_dumps (JArr Sample.compacted_d)) 1 1 0 None).
  - apply occurs_last_only_true; [discriminate | reflexivity].
  - apply occurs_inb_false; [discriminate | reflexivity].
  - repeat (constructor; [apply occurs_inb_false; [discriminate | vm_compute; reflexivity]|]).
    constructor.
Defined.

(** ** X15 and X16: dates *)

Lemma digit_of_spec c n :
  digit_of c = Some n -> nat_of_ascii c = 48 + n /\ n < 10.
Proof.
  unfold digit_of.
  destruct ((48 <=? nat_of_ascii c)%nat && (nat_of_ascii c <=? 57)%nat) eqn:H;
    [|discriminate].
  intros [= <-]. apply andb_true_iff in H as [H1 H2].
  apply Nat.leb_le in H1, H2. lia.
Qed.

Lemma digit_of_char c n : digit_of c = Some n -> c = ascii_of_nat (48 + n).
Proof.
  intros H. apply digit_of_spec in H as [H _].
  now rewrite <- H, ascii_nat_embedding.
Qed.

Lemma digit_not_hyphen c n : digit_of c = Some n -> Ascii.eqb c "-" = false.
Proof.
  intros H. apply digit_of_spec in H as [H _].
  apply Ascii.eqb_neq. intros ->. vm_compute in H. lia.
Qed.

Lemma digit_compare c c' n n' :
  digit_of c = Some n -> digit_of c' = Some n' -> Ascii.compare c c' = Nat.compare n n'.
Proof.
  intros H H'. apply digit_of_spec in H as [H _]. apply digit_of_spec in H' as [H' _].
  unfold Ascii.compare, nat_of_ascii in *.
  rewrite N2Nat.inj_compare, H, H'.
  destruct (Nat.compare_spec n n'), (Nat.compare_spec (48 + n) (48 + n')); (reflexivity || lia).
Qed.

(** Comparing two numbers digit by digit. *)
Lemma lex_compare B q r q' r' :
  r < B -> r' < B ->
  Nat.compare (B * q + r) (B * q' + r')
  = match Nat.compare q q' with Eq => Nat.compare r r' | ne => ne end.
Proof.
  intros Hr Hr'.
  destruct (Nat.compare_spec q q') as [->|Hq|Hq].
  - destruct (Nat.compare_spec r r'), (Nat.compare_spec (B * q' + r) (B * q' + r'));
      (reflexivity || lia).
  - apply Nat.compare_lt_iff. nia.
  - apply Nat.compare_gt_iff. nia.
Qed.

Lemma first_match_in {A} alts (k : nat -> string -> option A) s r :
  first_match alts k s = Some r ->
  exists alt n rest, alt ∈ alts /\ alt s = Some (n, rest) /\ k n rest = Some r.
Proof.
  induction alts as [|alt alts IH]; simpl; [discriminate|].
  destruct (alt s) as [[n rest]|] eqn:Halt.
  - destruct (k n rest) as [a|] eqn:Hk.
    + intros [= <-]. exists alt, n, rest. split; [left | auto].
    + intros H. destruct (IH H) as (alt' & n' & rest' & Hin & H').
      exists alt', n', rest'. split; [now right | exact H'].
  - intros H. destruct (IH H) as (alt' & n' & rest' & Hin & H').
    exists alt', n', rest'. split; [now right | exact H'].
Qed.

Lemma in_range_spec lo hi c n : in_range lo hi c = Some n -> digit_of c = Some n /\ lo <= n <= hi.
Proof.
  unfold in_range. destruct (digit_of c) as [d|]; [|discriminate].
  destruct ((lo <=? d)%nat && (d <=? hi)%nat) eqn:H; [|discriminate].
  intros [= <-]. apply andb_true_iff in H as [H1 H2].
  apply Nat.leb_le in H1, H2. auto.
Qed.

Lemma two_chars_spec lo1 hi1 lo2 hi2 s n rest :
  two_chars (in_range lo1 hi1) (in_range lo2 hi2) s = Some (n, rest) ->
  exists c1 c2 n1 n2,
    s = String c1 (String c2 rest) /\ n = 10 * n1 + n2
    /\ digit_of c1 = Some n1 /\ lo1 <= n1 <= hi1
    /\ digit_of c2 = Some n2 /\ lo2 <= n2 <= hi2.
Proof.
  unfold two_chars. destruct s as [|c1 [|c2 s]]; try discriminate.
  destruct (in_range lo1 hi1 c1) as [n1|] eqn:H1; [|discriminate].
  destruct (in_range lo2 hi2 c2) as [n2|] eqn:H2; [|discriminate].
  intros [= <- <-]. apply in_range_spec in H1 as [H1 ?], H2 as [H2 ?].
  exists c1, c2, n1, n2. repeat split; tauto.
Qed.

Lemma one_char_spec lo hi s n rest :
  one_char (in_range lo hi) s = Some (n, rest) ->
  exists c, s = String c rest /\ digit_of c = Some n /\ lo <= n <= hi.
Proof.
  unfold one_char. destruct s as [|c s]; [discriminate|].
  destruct (in_range lo hi c) as [d|] eqn:H; [|discriminate].
  intros [= <- <-]. apply in_range_spec in H as [H ?]. exists c. repeat split; tauto.
Qed.

Lemma decimal_value_lt cp d : decimal_value cp = Some d -> d < 10.
Proof.
  unfold decimal_value. destruct (List.find (in_run cp) digit_runs) as [run|];
    [|discriminate].
  intros [= <-]. pose proof (N.mod_lt (cp - fst run) 10). lia.
Qed.

Lemma unicode_digit_lt s d rest : unicode_digit s = Some (d, rest) -> d < 10.
Proof.
  unfold unicode_digit. destruct (decode_code_point s) as [[cp r]|]; [|discriminate].
  destruct (decimal_value cp) as [d'|] eqn:Hd; [|discriminate].
  intros [= <- _]. exact (decimal_value_lt _ _ Hd).
Qed.

(** On an ASCII digit [\d] reads what the class [[0-9]] reads. *)
Lemma unicode_digit_ascii c n rest :
  digit_of c = Some n -> unicode_digit (String c rest) = Some (n, rest).
Proof.
  intros H. pose proof (digit_of_spec _ _ H) as [_ Hn].
  rewrite (digit_of_char c n H).
  do 10 (destruct n as [|n]; [reflexivity|]). lia.
Qed.

Lemma char_then_digit_spec lo hi s n rest :
  char_then_digit (in_range lo hi) s = Some (n, rest) ->
  exists c1 n1 n2 r,
    s = String c1 r /\ n = 10 * n1 + n2
    /\ digit_of c1 = Some n1 /\ lo <= n1 <= hi
    /\ unicode_digit r = Some (n2, rest).
Proof.
  unfold char_then_digit. destruct s as [|c1 r]; [discriminate|].
  destruct (in_range lo hi c1) as [n1|] eqn:H1; [|discriminate].
  destruct (unicode_digit r) as [[n2 r']|] eqn:H2; [|discriminate].
  intros [= <- <-]. apply in_range_spec in H1 as [H1 ?].
  exists c1, n1, n2, r. repeat split; tauto.
Qed.

Lemma year_group_spec s y rest :
  year_group s = Some (y, rest) ->
  exists n1 n2 n3 n4 r1 r2 r3,
    unicode_digit s = Some (n1, r1) /\ unicode_digit r1 = Some (n2, r2)
    /\ unicode_digit r2 = Some (n3, r3) /\ unicode_digit r3 = Some (n4, rest)
    /\ y = 1000 * n1 + 100 * n2 + 10 * n3 + n4.
Proof.
  unfold year_group.
  destruct (unicode_digit s) as [[n1 r1]|] eqn:H1; [|discriminate]. simpl.
  destruct (unicode_digit r1) as [[n2 r2]|] eqn:H2; [|discriminate]. simpl.
  destruct (unicode_digit r2) as [[n3 r3]|] eqn:H3; [|discriminate]. simpl.
  destruct (unicode_digit r3) as [[n4 r4]|] eqn:H4; [|discriminate]. simpl.
  intros [= <- <-]. exists n1, n2, n3, n4, r1, r2, r3. auto 10.
Qed.

Lemma hyphen_spec {A} (k : string -> option A) s r :
  hyphen k s = Some r -> exists rest, s = String "-" rest /\ k rest = Some r.
Proof.
  unfold hyphen. destruct s as [|c s]; [discriminate|].
  destruct (Ascii.eqb_spec c "-") as [->|]; [|discriminate]. eauto.
Qed.

Lemma month_group_read alt s n rest :
  alt ∈ month_group -> alt s = Some (n, rest) -> month_read s n rest.
Proof.
  unfold month_group. intros Hin H.
  repeat (apply elem_of_cons in Hin as [->|Hin]); [| | |now apply elem_of_nil in Hin].
  - apply two_chars_spec in H as (c1 & c2 & n1 & n2 & -> & -> & H1 & ? & H2 & ?).
    constructor; auto. lia.
  - apply two_chars_spec in H as (c1 & c2 & n1 & n2 & -> & -> & H1 & ? & H2 & ?).
    constructor; auto. lia.
  - apply one_char_spec in H as (c & -> & H1 & ?). now constructor.
Qed.

Lemma day_group_read alt s n rest :
  alt ∈ day_group -> alt s = Some (n, rest) -> day_read s n rest.
Proof.
  unfold day_group. intros Hin H.
  repeat (apply elem_of_cons in Hin as [->|Hin]); [| | | | |now apply elem_of_nil in Hin].
  - apply two_chars_spec in H as (c1 & c2 & n1 & n2 & -> & -> & H1 & ? & H2 & ?).
    constructor; auto. lia.
  - apply char_then_digit_spec in H as (c1 & n1 & n2 & r & -> & -> & H1 & ? & H2).
    now apply day_any.
  - apply two_chars_spec in H as (c1 & c2 & n1 & n2 & -> & -> & H1 & ? & H2 & ?).
    constructor; auto. lia.
  - apply one_char_spec in H as (c & -> & H1 & ?). now constructor.
  - unfold space_then in H. destruct s as [|sp s]; [discriminate|].
    destruct (Ascii.eqb_spec sp " ") as [->|]; [|discriminate].
    apply one_char_spec in H as (c & -> & H1 & ?). now constructor.
Qed.

(** The shape of every string the format matches. *)
Lemma match_ymd_spec s y m d rest :
  match_ymd s = Some (y, m, d, rest) ->
  exists n1 n2 n3 n4 r1 r2 r3 s1 s2,
    unicode_digit s = Some (n1, r1) /\ unicode_digit r1 = Some (n2, r2)
    /\ unicode_digit r2 = Some (n3, r3)
    /\ unicode_digit r3 = Some (n4, String "-" s1)
    /\ y = 1000 * n1 + 100 * n2 + 10 * n3 + n4
    /\ month_read s1 m (String "-" s2) /\ day_read s2 d rest.
Proof.
  unfold match_ymd. intros H.
  apply first_match_in in H as (alt & y' & r & Hin & Hy & H).
  apply elem_of_cons in Hin as [->|Hin]; [|now apply elem_of_nil in Hin].
  apply year_group_spec in Hy
    as (n1 & n2 & n3 & n4 & r1 & r2 & r3 & H1 & H2 & H3 & H4 & ->).
  apply hyphen_spec in H as (s1 & -> & H).
  apply first_match_in in H as (altm & m' & rm & Hinm & Hm & H).
  apply hyphen_spec in H as (s2 & -> & H).
  apply first_match_in in H as (altd & d' & rd & Hind & Hd & H).
  injection H as <- <- <- <-.
  exists n1, n2, n3, n4, r1, r2, r3, s1, s2.
  repeat split; auto.
  - now apply (month_group_read altm).
  - now apply (day_group_read altd).
Qed.

Lemma strptime_spec s d :
  strptime s = Ok d ->
  match_ymd s = Some (year d, month d, day d, "")
  /\ 1 <= year d /\ day d <= days_in_month (year d) (month d).
Proof.
  unfold strptime.
  destruct (match_ymd s) as [[[[y m] dd] rest]|]; [|discriminate].
  destruct (String.eqb_spec rest "") as [->|]; [|discriminate]. cbv [negb].
  destruct (Nat.ltb_spec y 1); [discriminate|].
  destruct (Nat.ltb_spec (days_in_month y m) dd); [discriminate|].
  intros [= <-]. simpl. auto.
Qed.

Lemma is_digit_true c : is_digit c = true -> exists n, digit_of c = Some n.
Proof. unfold is_digit. destruct (digit_of c); [eauto | discriminate]. Qed.

Ltac same_digits :=
  repeat match goal with
         | Ha : digit_of ?c = Some ?a, Hb : digit_of ?c = Some ?b |- _ =>
             assert (a = b) by congruence; subst; clear Hb
         end.

(** A date written in full parses to the date its digits spell. *)
Lemma iso_parsed s d : is_iso_date s = true -> strptime s = Ok d -> iso_of s d.
Proof.
  intros Hiso H. unfold is_iso_date in Hiso.
  destruct s as [|y1 [|y2 [|y3 [|y4 [|h1 [|m1 [|m2 [|h2 [|d1 [|d2 [|? ?]]]]]]]]]]];
    try discriminate.
  rewrite !andb_true_iff in Hiso.
  destruct Hiso as [[[[[[[[[Hy1 Hy2] Hy3] Hy4] Hh1] Hm1] Hm2] Hh2] Hd1] Hd2].
  apply Ascii.eqb_eq in Hh1, Hh2. subst h1 h2.
  apply is_digit_true in Hy1 as [a1 Hy1], Hy2 as [a2 Hy2].
  apply is_digit_true in Hy3 as [a3 Hy3], Hy4 as [a4 Hy4].
  apply is_digit_true in Hm1 as [b1 Hm1], Hm2 as [b2 Hm2].
  apply is_digit_true in Hd1 as [e1 Hd1], Hd2 as [e2 Hd2].
  apply strptime_spec in H as (H & _ & _).
  apply match_ymd_spec in H
    as (n1 & n2 & n3 & n4 & r1 & r2 & r3 & s1 & s2
        & U1 & U2 & U3 & U4 & Hyear & Hm & Hday).
  rewrite (unicode_digit_ascii _ _ _ Hy1) in U1. injection U1 as <- <-.
  rewrite (unicode_digit_ascii _ _ _ Hy2) in U2. injection U2 as <- <-.
  rewrite (unicode_digit_ascii _ _ _ Hy3) in U3. injection U3 as <- <-.
  rewrite (unicode_digit_ascii _ _ _ Hy4) in U4. injection U4 as <- <-.
  assert (month d = 10 * b1 + b2 /\ s2 = String d1 (String d2 "")) as [Emonth ->].
  { inversion Hm; subst.
    - same_digits. split; [lia | reflexivity].
    - vm_compute in Hm2. discriminate Hm2. }
  assert (day d = 10 * e1 + e2) as Eday.
  { inversion Hday; subst.
    - same_digits. lia.
    - match goal with
      | U : unicode_digit (String d2 "") = _ |- _ =>
          rewrite (unicode_digit_ascii _ _ _ Hd2) in U; injection U as <-
      end.
      same_digits. lia.
    - vm_compute in Hd1. discriminate Hd1. }
  destruct d as [y m dd]. simpl in *. subst.
  now constructor.
Qed.

(** X16. [strptime] accepts calendar dates only: a parsed date has a year
    from 1 to 9999 (below 10 * 1000), a month from 1 to 12 and a day of that
    month.  Where the string is written in full with ASCII digits, the date
    is the one its digits spell.  What [strftime] shows of a date is the
    English name of the month, a space and the decimal numeral of the year,
    which has no zero in front. *)
Theorem parsed_date_is_displayed s d :
  strptime s = Ok d ->
  1 <= year d < 10 * 1000 /\ 1 <= month d <= 12
  /\ 1 <= day d <= days_in_month (year d) (month d)
  /\ (is_iso_date s = true -> iso_of s d)
  /\ rendered d (strftime d).
Proof.
  intros H.
  split; [|split; [|split; [|split; [now intros Hiso; apply iso_parsed
                                    | apply strftime_rendered]]]];
    apply strptime_spec in H as (H & Hy & Hd);
    apply match_ymd_spec in H
      as (n1 & n2 & n3 & n4 & r1 & r2 & r3 & s1 & s2
          & U1 & U2 & U3 & U4 & Hyear & Hm & Hday).
  - apply unicode_digit_lt in U1, U2, U3, U4. lia.
  - inversion Hm; subst; lia.
  - split; [|exact Hd]. inversion Hday; subst; lia.
Qed.

Lemma parsed_date_is_displayed_witness :
  let d := {| year := 2019; month := 11; day := 2 |} in
  1 <= year d < 10 * 1000 /\ 1 <= month d <= 12
  /\ 1 <= day d <= days_in_month (year d) (month d)
  /\ (is_iso_date "2019-11-02" = true -> iso_of "2019-11-02" d)
  /\ rendered d (strftime d).
Proof.
  apply (parsed_date_is_displayed "2019-11-02" {| year := 2019; month := 11; day := 2 |}).
  reflexivity.
Defined.

(** The digits of any script are read in the year and in the second place of
    a day from 10 to 29, and nowhere else; a year below 1000 is shown
    without the zeros it was written with. *)
Example strptime_reads_any_digit :
  strptime "٢٠١٩-11-02" = Ok {| year := 2019; month := 11; day := 2 |}
  /\ strptime "2019-11-1٣" = Ok {| year := 2019; month := 11; day := 13 |}
  /\ strptime "2019-1١-13" = Raise (ValueError "time data does not match format")
  /\ strptime "2019-11-٠٢" = Raise (ValueError "time data does not match format")
  /\ (d ← strptime "0999-01-01"; Ok (strftime d)) = Ok "January 999"
  /\ strptime "0000-01-01" = Raise (ValueError "year is out of range").
Proof. repeat split; vm_compute; reflexivity. Qed.

(** On dates written in full the order of the strings is the order of the
    calendar. *)
Lemma iso_compare a b da db :
  iso_of a da -> iso_of b db -> String.compare a b = date_compare da db.
Proof.
  intros [y1 y2 y3 y4 m1 m2 d1 d2 a1 a2 a3 a4 b1 b2 e1 e2 A1 A2 A3 A4 B1 B2 E1 E2]
         [y1' y2' y3' y4' m1' m2' d1' d2' a1' a2' a3' a4' b1' b2' e1' e2'
          A1' A2' A3' A4' B1' B2' E1' E2'].
  pose proof (digit_of_spec _ _ A1) as [_ ?]. pose proof (digit_of_spec _ _ A2) as [_ ?].
  pose proof (digit_of_spec _ _ A3) as [_ ?]. pose proof (digit_of_spec _ _ A4) as [_ ?].
  pose proof (digit_of_spec _ _ B2) as [_ ?]. pose proof (digit_of_spec _ _ E2) as [_ ?].
  pose proof (digit_of_spec _ _ A1') as [_ ?]. pose proof (digit_of_spec _ _ A2') as [_ ?].
  pose proof (digit_of_spec _ _ A3') as [_ ?]. pose proof (digit_of_spec _ _ A4') as [_ ?].
  pose proof (digit_of_spec _ _ B2') as [_ ?]. pose proof (digit_of_spec _ _ E2') as [_ ?].
  unfold date_compare. cbn [year month day String.compare].
  change (Ascii.compare "-" "-") with Eq. cbv iota.
  rewrite (digit_compare _ _ _ _ A1 A1'), (digit_compare _ _ _ _ A2 A2'),
    (digit_compare _ _ _ _ A3 A3'), (digit_compare _ _ _ _ A4 A4'),
    (digit_compare _ _ _ _ B1 B1'), (digit_compare _ _ _ _ B2 B2'),
    (digit_compare _ _ _ _ E1 E1'), (digit_compare _ _ _ _ E2 E2').
  replace (1000 * a1 + 100 * a2 + 10 * a3 + a4)
    with (10 * (10 * (10 * a1 + a2) + a3) + a4) by lia.
  replace (1000 * a1' + 100 * a2' + 10 * a3' + a4')
    with (10 * (10 * (10 * a1' + a2') + a3') + a4') by lia.
  rewrite !lex_compare by assumption.
  destruct (Nat.compare a1 a1'); try reflexivity.
  destruct (Nat.compare a2 a2'); try reflexivity.
  destruct (Nat.compare a3 a3'); try reflexivity.
  destruct (Nat.compare a4 a4'); try reflexivity.
  destruct (Nat.compare b1 b1'); try reflexivity.
  destruct (Nat.compare b2 b2'); try reflexivity.
  destruct (Nat.compare e1 e1'); try reflexivity.
  destruct (Nat.compare e2 e2'); reflexivity.
Qed.

Lemma last_elem_of {A} (x : A) l d : List.last (x :: l) d ∈ x :: l.
Proof.
  revert x. induction l as [|a l IH]; intros x; [left|].
  change (List.last (x :: a :: l) d) with (List.last (a :: l) d). right. apply IH.
Qed.

(** X15. Sorting the date strings sorts the dates, as long as they are
    written in full (YYYY-MM-DD with leading zeros): for such strings the
    lexicographic order is the order of the calendar, so the first of the
    sorted list parses to a date not after any other and the last to a date
    not before any other. *)
Theorem iso_dates_sort_by_calendar ds first rest :
  Forall (fun d => is_iso_date d = true) ds ->
  sort_strings ds = first :: rest ->
  (forall a b da db, a ∈ ds -> b ∈ ds -> strptime a = Ok da -> strptime b = Ok db ->
     (str_le a b <-> not_after da db))
  /\ (forall e l x dx,
        strptime first = Ok e -> strptime (List.last (first :: rest) first) = Ok l ->
        x ∈ ds -> strptime x = Ok dx ->
        not_after e dx /\ not_after dx l).
Proof.
  intros Hiso Hsort. rewrite Forall_forall in Hiso.
  assert (Horder : forall a b da db, a ∈ ds -> b ∈ ds ->
            strptime a = Ok da -> strptime b = Ok db ->
            (str_le a b <-> not_after da db)).
  { intros a b da db Ha Hb Hda Hdb. unfold str_le, not_after, String.leb.
    rewrite (iso_compare a b da db) by (apply iso_parsed; auto).
    destruct (date_compare da db); split; congruence. }
  split; [exact Horder|].
  intros e l x dx He Hl Hx Hdx.
  pose proof (sort_strings_sorted ds) as Hsorted.
  pose proof (sort_strings_perm ds) as Hperm.
  assert (Hfirst : first ∈ ds). { rewrite <- Hperm, Hsort. left. }
  assert (Hlast : List.last (first :: rest) first ∈ ds).
  { rewrite <- Hperm, Hsort. apply last_elem_of. }
  split.
  - apply (Horder first x e dx Hfirst Hx He Hdx).
    pose proof (sorted_head_least _ first rest Hsorted Hsort) as Hleast.
    rewrite Forall_forall in Hleast. apply Hleast. now rewrite Hperm.
  - apply (Horder x _ dx l Hx Hlast Hdx Hl).
    pose proof (sorted_last_greatest _ first Hsorted) as Hgreatest.
    rewrite Hsort, Forall_forall in Hgreatest. apply Hgreatest.
    now rewrite <- Hsort, Hperm.
Qed.

Lemma iso_dates_sort_by_calendar_witness :
  let ds := ["2021-03-05"; "2019-11-02"; "2020-01-01"] in
  (forall a b da db, a ∈ ds -> b ∈ ds -> strptime a = Ok da -> strptime b = Ok db ->
     (str_le a b <-> not_after da db))
  /\ (forall e l x dx,
        strptime "2019-11-02" = Ok e ->
        strptime (List.last ["2019-11-02"; "2020-01-01"; "2021-03-05"] "2019-11-02") = Ok l ->
        x ∈ ds -> strptime x = Ok dx ->
        not_after e dx /\ not_after dx l).
Proof.
  apply (iso_dates_sort_by_calendar
           ["2021-03-05"; "2019-11-02"; "2020-01-01"]
           "2019-11-02" ["2020-01-01"; "2021-03-05"]).
  - repeat constructor.
  - reflexivity.
Defined.

(** Dates that [strptime] accepts without leading zeros do not sort by the
    calendar: October comes out before September. *)
Example short_dates_sort_wrongly :
  date_range (JArr [JObj [("title", JStr "a"); ("date", JStr "2020-9-01")];
                    JObj [("title", JStr "b"); ("date", JStr "2020-10-01")]])
  = Ok (Some ("October 2020", "September 2020")).
Proof. reflexivity. Qed.


(** ** X17 and X18: the text of the compact JSON *)

Lemma json_nested_ind (P : json -> Prop) :
  P JNull -> (forall b, P (JBool b)) -> (forall z, P (JInt z)) -> (forall s, P (JStr s)) ->
  (forall xs, Forall P xs -> P (JArr xs)) ->
  (forall kvs, Forall (fun kv => P (snd kv)) kvs -> P (JObj kvs)) ->
  forall v, P v.
Proof.
  intros Hnull Hbool Hint Hstr Harr Hobj. fix IH 1. intros [|b|z|s|xs|kvs].
  - exact Hnull.
  - apply Hbool.
  - apply Hint.
  - apply Hstr.
  - apply Harr. induction xs as [|x xs IHxs]; constructor; [apply IH | exact IHxs].
  - apply Hobj. induction kvs as [|[k x] kvs IHkvs]; constructor; [apply IH | exact IHkvs].
Qed.

Lemma no_c0_control_cons c s :
  no_c0_control (String c s) = (32 <=? nat_of_ascii c)%nat && no_c0_control s.
Proof. reflexivity. Qed.

Lemma no_c0_control_app a b : no_c0_control (a +:+ b) = no_c0_control a && no_c0_control b.
Proof.
  induction a as [|c a IH]; [reflexivity|].
  rewrite append_cons. simpl. now rewrite IH, andb_assoc.
Qed.

Lemma escape_char_no_c0_control c : no_c0_control (escape_char c) = true.
Proof. destruct c as [[] [] [] [] [] [] [] []]; reflexivity. Qed.

Lemma escape_string_no_c0_control s : no_c0_control (escape_string s) = true.
Proof.
  induction s as [|c s IH]; [reflexivity|]. simpl.
  now rewrite no_c0_control_app, escape_char_no_c0_control, IH.
Qed.

Lemma dumps_string_no_c0_control s : no_c0_control (dumps_string s) = true.
Proof.
  unfold dumps_string. rewrite no_c0_control_app. simpl.
  now rewrite escape_string_no_c0_control.
Qed.

Lemma pretty_N_char_no_c0_control n :
  (32 <=? nat_of_ascii (pretty_N_char n))%nat = true.
Proof.
  destruct n as [|p]; [reflexivity|].
  do 4 (try destruct p as [p|p|]); reflexivity.
Qed.

Lemma pretty_N_go_no_c0_control x s :
  no_c0_control s = true -> no_c0_control (pretty_N_go x s) = true.
Proof.
  revert s. induction (N.lt_wf_0 x) as [x _ IH]; intros s Hs.
  destruct (decide (x = 0)%N) as [->|Hx]; [now rewrite pretty_N_go_0|].
  rewrite pretty_N_go_step by lia. apply IH.
  - apply N.div_lt; lia.
  - now rewrite no_c0_control_cons, Hs, pretty_N_char_no_c0_control.
Qed.

Lemma pretty_N_no_c0_control (x : N) : no_c0_control (pretty x) = true.
Proof.
  unfold pretty, pretty_N. case_decide; [reflexivity|].
  now apply pretty_N_go_no_c0_control.
Qed.

Lemma pretty_Z_no_c0_control (z : Z) : no_c0_control (pretty z) = true.
Proof.
  destruct z as [|p|p]; [reflexivity| |].
  - apply (pretty_N_no_c0_control (Npos p)).
  - change (pretty (Zneg p)) with ("-" +:+ pretty (Npos p)).
    rewrite no_c0_control_app. simpl. apply (pretty_N_no_c0_control (Npos p)).
Qed.

Lemma join_comma_no_c0_control items :
  Forall (fun s => no_c0_control s = true) items -> no_c0_control (join_comma items) = true.
Proof.
  induction 1 as [|x items Hx Hitems IH]; [reflexivity|].
  destruct items as [|y items]; [exact Hx|].
  change (join_comma (x :: y :: items)) with (x +:+ "," +:+ join_comma (y :: items)).
  now rewrite !no_c0_control_app, Hx, IH.
Qed.

(** X17. Whatever the records hold, the compact JSON has no character below
    U+0020: no line feed, no carriage return, no tab and no NUL, since
    [json.dumps] writes those inside strings as escapes and puts none
    between the items.  [json.dumps] escapes nothing else but the quote and
    the backslash: DEL, the controls from U+0080 to U+009F and the line
    separator U+2028 are written as they are. *)
Theorem compact_json_no_c0_control v :
  no_c0_control (json_dumps v) = true
  /\ let raw := String (ascii_of_nat 127)
                 (String (ascii_of_nat 194) (String (ascii_of_nat 133)
                   (String (ascii_of_nat 226) (String (ascii_of_nat 128)
                     (String (ascii_of_nat 168) ""))))) in
     json_dumps (JStr raw) = String dquote (raw +:+ String dquote "").
Proof.
  split; [|reflexivity].
  induction v as [|b|z|s|xs IH|kvs IH] using json_nested_ind.
  - reflexivity.
  - now destruct b.
  - apply pretty_Z_no_c0_control.
  - apply dumps_string_no_c0_control.
  - change (json_dumps (JArr xs)) with ("[" +:+ join_comma (map json_dumps xs) +:+ "]").
    rewrite !no_c0_control_app, join_comma_no_c0_control; [reflexivity|].
    induction IH; constructor; assumption.
  - change (json_dumps (JObj kvs))
      with ("{" +:+ join_comma
                      (map (fun kv => dumps_string (fst kv) +:+ ":" +:+ json_dumps (snd kv)) kvs)
            +:+ "}").
    rewrite !no_c0_control_app, join_comma_no_c0_control; [reflexivity|].
    induction IH as [|kv kvs Hkv _ IHkvs]; constructor; [|assumption].
    now rewrite !no_c0_control_app, dumps_string_no_c0_control, Hkv.
Qed.

(** X18. With [ensure_ascii=False] a string without control characters,
    quotes and backslashes is written between two quotes exactly as it is:
    text outside ASCII stays UTF-8, and markup such as [</script>] is not
    escaped. *)
Theorem plain_string_written_verbatim s :
  plain s = true ->
  json_dumps (JStr s) = String dquote (s +:+ String dquote "").
Proof.
  intros H. change (json_dumps (JStr s)) with (dumps_string s). unfold dumps_string.
  rewrite append_cons. f_equal. f_equal.
  induction s as [|c s IH]; [reflexivity|].
  simpl in H. apply andb_true_iff in H as [Hc Hs].
  change (escape_string (String c s)) with (escape_char c +:+ escape_string s).
  rewrite (IH Hs).
  assert (escape_char c = String c "") as ->; [|reflexivity].
  unfold plain_char in Hc. rewrite !andb_true_iff, !negb_true_iff in Hc.
  destruct Hc as [[Hn Hq] Hb]. unfold escape_char. rewrite Hq, Hb.
  apply Nat.leb_le in Hn.
  repeat match goal with
         | |- context [(?a =? ?b)%nat] =>
             destruct (Nat.eqb_spec a b); [lia|]
         end.
  destruct (Nat.ltb_spec (nat_of_ascii c) 32); [lia | reflexivity].
Qed.

Lemma plain_string_written_verbatim_witness :
  json_dumps (JStr "Être & néant </script>")
  = String dquote ("Être & néant </script>" +:+ String dquote "").
Proof.
  apply (plain_string_written_verbatim "Être & néant </script>"). reflexivity.
Defined.
